(** * Random-Image-Selector: the Selector and the Viewer

    A shallow embedding of [randomImageSellector2.py] and of the click
    handler and constructor of [app_ui.py], with the properties of the
    specification stated and proved over it.

    Conventions.
    - A Python [str] is a [string]; one [ascii] stands for one code point
      in the range U+0000..U+00FF, on which [str.lower] is given exactly.
    - The outside world (the directory, the image files, the Tk image
      converter, the display, the encoding of standard output) answers
      through an [Env] record; each answer is either a value or a raised
      exception.  Standard output is taken to be an open text stream.
    - Mutable state (the label widget, the Tk image table, the console,
      the global generator of module [random]) is threaded through a state
      and exception monad [M]. *)

From Stdlib Require Import String Ascii List ZArith Lia Bool Permutation.
From stdpp Require Import gmap strings list fin_maps.

Import ListNotations.
Local Open Scope string_scope.
Local Open Scope list_scope.

(** ** Python built-ins used by the program *)

Module Py.

(** Code points below 256 that [str.lower] maps 32 places up:
    A..Z, and the Latin-1 capitals U+00C0..U+00DE without U+00D7. *)
Definition is_upper_cp (n : nat) : bool :=
  (((65 <=? n) && (n <=? 90))
   || ((192 <=? n) && (n <=? 222) && negb (n =? 215)))%nat.

Definition lower_char (c : ascii) : ascii :=
  let n := nat_of_ascii c in
  if is_upper_cp n then ascii_of_nat (n + 32) else c.

(** [str.lower()] *)
Fixpoint lower (s : string) : string :=
  match s with
  | EmptyString => EmptyString
  | String c r => String (lower_char c) (lower r)
  end.

(** [s.endswith(suffix)] for one suffix: the last [len(suffix)]
    characters of [s] are [suffix]. *)
Definition endswith1 (s suffix : string) : bool :=
  let n := String.length s in
  let m := String.length suffix in
  (m <=? n)%nat && String.eqb (substring (n - m) m s) suffix.

(** [s.endswith(t)] for a tuple [t]: some member is a suffix. *)
Definition endswith (s : string) (suffixes : list string) : bool :=
  existsb (endswith1 s) suffixes.

(** [s.startswith(prefix)] *)
Definition startswith (s pre : string) : bool := String.prefix pre s.

(** Truth value of a list, of a string and of [Optional[str]]. *)
Definition truthy_list {A} (l : list A) : bool :=
  match l with [] => false | _ :: _ => true end.

Definition truthy_str (s : string) : bool :=
  match s with EmptyString => false | String _ _ => true end.

Definition truthy_opt_str (o : option string) : bool :=
  match o with None => false | Some s => truthy_str s end.

(** [str.isascii()] *)
Fixpoint isascii (s : string) : bool :=
  match s with
  | EmptyString => true
  | String c r => (nat_of_ascii c <? 128)%nat && isascii r
  end.

(** [posixpath.join(a, b)] *)
Definition os_path_join (a b : string) : string :=
  if startswith b "/" then b
  else if negb (truthy_str a) || endswith1 a "/" then a +:+ b
  else a +:+ "/" +:+ b.

End Py.

(** ** Exceptions and results *)

Inductive exc_class : Type :=
  | FileNotFoundError | NotADirectoryError | PermissionError
  | IsADirectoryError | OSError | UnidentifiedImageError
  | ValueError | IndexError | MemoryError | TclError | UnicodeEncodeError.

(** An exception object: its class (each of them derives from
    [Exception]) and the text [str(exc)] gives. *)
Record exn : Type := Exc { exc_cls : exc_class; exc_str : string }.

Inductive Result (A : Type) : Type :=
  | Return (a : A)
  | Raise (e : exn).
Arguments Return {A} a.
Arguments Raise {A} e.

(** ** The pseudo-random generator of module [random]

    [randbelow n] is [Random._randbelow(n)]: for [n > 0] it yields an
    index below [n] and the next generator state.  [seed a] is the state
    [random.seed(a)] installs, whatever the state was before. *)
Record Generator : Type := {
  gen_state : Type;
  seed : Z -> gen_state;
  randbelow : nat -> gen_state -> nat * gen_state;
  randbelow_lt : forall n g, 0 < n -> fst (randbelow n g) < n
}.

(** A generator to run the model with: its state is a counter and the
    draw is the counter reduced modulo the bound. *)
Definition counter_gen : Generator := {|
  gen_state := nat;
  seed := fun a => Z.to_nat (Z.abs a);
  randbelow := fun n g => (g mod n, S g);
  randbelow_lt := fun n g Hn =>
    Nat.mod_upper_bound g n (proj2 (Nat.neq_0_lt_0 n) Hn)
|}.

(** ** Pillow images

    An image value records how it was obtained: read from a file with the
    mode and the dimensions found there, copied, or resampled from another
    image with the filter that was applied. *)

Inductive Resampling : Type :=
  | NEAREST | LANCZOS | BILINEAR | BICUBIC | BOX | HAMMING.

(** [im.mode]: [Mode_1] is the bilevel mode ["1"], [Mode_P] the palette
    mode ["P"], [Mode_I16] stands for ["I;16"]. *)
Inductive Mode : Type :=
  | Mode_1 | Mode_L | Mode_P | Mode_RGB | Mode_RGBA | Mode_CMYK
  | Mode_YCbCr | Mode_LAB | Mode_HSV | Mode_I | Mode_F
  | Mode_LA | Mode_PA | Mode_RGBX | Mode_RGBa | Mode_La | Mode_I16.

Inductive PILImage : Type :=
  | ImageFile (filename : string) (mode : Mode) (size : Z * Z)
  | Copied (src : PILImage)
  | Resized (src : PILImage) (size : Z * Z) (resample : Resampling).

(** [im.size] *)
Fixpoint im_size (im : PILImage) : Z * Z :=
  match im with
  | ImageFile _ _ sz => sz
  | Copied src => im_size src
  | Resized _ sz _ => sz
  end.

(** [im.mode]: copying and resizing keep the mode. *)
Fixpoint im_mode (im : PILImage) : Mode :=
  match im with
  | ImageFile _ m _ => m
  | Copied src => im_mode src
  | Resized src _ _ => im_mode src
  end.

(** The filter that computed the pixels of [im]: none for the pixels of
    a file and for a copy. *)
Definition im_resample (im : PILImage) : option Resampling :=
  match im with
  | ImageFile _ _ _ => None
  | Copied _ => None
  | Resized _ _ r => Some r
  end.

Definition size_eqb (a b : Z * Z) : bool :=
  ((fst a =? fst b) && (snd a =? snd b))%Z.

(** [self.mode in ("1", "P")] *)
Definition mode_1_or_P (m : Mode) : bool :=
  match m with
  | Mode_1 | Mode_P => true
  | _ => false
  end.

(** What [Image.resize(size, resample)] returns for a decoded image: a
    copy when the image has the size already, and otherwise the image
    resampled with [resample], or with [NEAREST] when its mode is ["1"]
    or ["P"]. *)
Definition pil_resize (im : PILImage) (size : Z * Z) (resample : Resampling)
  : PILImage :=
  if size_eqb (im_size im) size then Copied im
  else Resized im size
         (if mode_1_or_P (im_mode im) then NEAREST else resample).

(** ** The outside world at the time of one handler run *)

Record Env : Type := {
  (** [os.listdir(path)]: the entry names, or the [OSError] raised when
      the path is missing, is no directory or cannot be read *)
  os_listdir : string -> Result (list string);
  (** [Image.open(path)]: a lazily read image file, or the error raised *)
  Image_open : string -> Result PILImage;
  (** the error, when there is one, of decoding the pixel data of an
      image, which [resize] does first *)
  load_error : PILImage -> option exn;
  (** the error, when there is one, of turning an image into a Tk image,
      and whether Tk had by then created the image under a new name *)
  photo_error : PILImage -> option (exn * bool);
  (** the [TclError] of [tk.Tk()] when no display can be opened *)
  display_error : option exn;
  (** the [UnicodeEncodeError] of writing a text that the encoding of
      standard output cannot encode; asked for texts that are not ASCII *)
  stdout_encode_error : string -> option exn
}.

(** The exception [print(s)] raises, when it raises one: ASCII text can
    always be written. *)
Definition print_error (env : Env) (s : string) : option exn :=
  if Py.isascii s then None else stdout_encode_error env s.

(** ** Tk widgets *)

(** An [ImageTk.PhotoImage] object, known by the number [n] of its Tk
    image name [pyimage<n>]. *)
Record PhotoImage : Type := { photo_name : nat }.

(** The label of the right-hand panel: its Tk options [-image] (absent
    when empty) and [-text], and the Python attribute [image] set on the
    widget object.  Its [-compound] option keeps the default [none]. *)
Record Label : Type := {
  opt_image : option nat;
  opt_text : string;
  attr_image : option PhotoImage
}.

Record Frame : Type := {
  frame_width : option Z;
  frame_bg : string;
  frame_side : string;
  frame_fill : string;
  frame_expand : bool;
  frame_propagate : bool
}.

Record Window : Type := {
  win_title : string;
  win_geometry : string;
  win_bg : string
}.

(** Keyword arguments of [Label.config]; [None] is Python's [None]. *)
Inductive kwarg : Type :=
  | kw_image (v : option PhotoImage)
  | kw_text (v : option string).

(** The option/value pairs handed to Tk. *)
Inductive tkopt : Type :=
  | tk_image (name : nat)
  | tk_text (s : string).

(** [tkinter.Misc._options]: a keyword whose value is [None] is left
    out of the Tk command. *)
Definition Misc_options (kw : list kwarg) : list tkopt :=
  flat_map (fun k =>
              match k with
              | kw_image (Some p) => [tk_image (photo_name p)]
              | kw_text (Some s) => [tk_text s]
              | kw_image None | kw_text None => []
              end) kw.

(** [<label> configure <option> <value> ...] *)
Definition tk_configure (opts : list tkopt) (l : Label) : Label :=
  fold_left (fun l o =>
               match o with
               | tk_image n =>
                   {| opt_image := Some n; opt_text := opt_text l;
                      attr_image := attr_image l |}
               | tk_text s =>
                   {| opt_image := opt_image l; opt_text := s;
                      attr_image := attr_image l |}
               end) opts l.

(** What the label draws: with [-compound none] the image alone when
    [-image] is set (nothing once that image has been deleted), and the
    text otherwise. *)
Inductive Shown : Type :=
  | ShowsImage (im : PILImage)
  | ShowsText (s : string)
  | ShowsNothing.

(** ** The program *)

Section Program.

Variable G : Generator.

(** The state of the running process. *)
Record World : Type := {
  master : Window;
  left_frame : option Frame;
  right_frame : option Frame;
  image_label : Label;
  (** Tk's image table, and [tkinter.Image._last_id] *)
  tk_images : gmap nat PILImage;
  last_id : nat;
  (** lines written by [print] *)
  console : list string;
  (** state of the generator behind [random.choice] *)
  rng : gen_state G
}.

Definition set_master (m : Window) (w : World) : World :=
  {| master := m; left_frame := left_frame w;
     right_frame := right_frame w; image_label := image_label w;
     tk_images := tk_images w; last_id := last_id w;
     console := console w; rng := rng w |}.

Definition set_frames (l r : option Frame) (w : World) : World :=
  {| master := master w; left_frame := l; right_frame := r;
     image_label := image_label w; tk_images := tk_images w;
     last_id := last_id w; console := console w; rng := rng w |}.

Definition set_image_label (l : Label) (w : World) : World :=
  {| master := master w; left_frame := left_frame w;
     right_frame := right_frame w; image_label := l;
     tk_images := tk_images w; last_id := last_id w;
     console := console w; rng := rng w |}.

Definition set_tk (t : gmap nat PILImage) (n : nat) (w : World) : World :=
  {| master := master w; left_frame := left_frame w;
     right_frame := right_frame w; image_label := image_label w;
     tk_images := t; last_id := n;
     console := console w; rng := rng w |}.

Definition set_console (c : list string) (w : World) : World :=
  {| master := master w; left_frame := left_frame w;
     right_frame := right_frame w; image_label := image_label w;
     tk_images := tk_images w; last_id := last_id w;
     console := c; rng := rng w |}.

Definition set_rng (g : gen_state G) (w : World) : World :=
  {| master := master w; left_frame := left_frame w;
     right_frame := right_frame w; image_label := image_label w;
     tk_images := tk_images w; last_id := last_id w;
     console := console w; rng := g |}.

Definition display (w : World) : Shown :=
  match opt_image (image_label w) with
  | None => ShowsText (opt_text (image_label w))
  | Some n =>
      match tk_images w !! n with
      | Some im => ShowsImage im
      | None => ShowsNothing
      end
  end.

(** *** State and exception monad *)

Definition M (A : Type) : Type := World -> Result A * World.

Definition ret {A} (a : A) : M A := fun w => (Return a, w).

Definition raise {A} (e : exn) : M A := fun w => (Raise e, w).

Definition bind {A B} (m : M A) (k : A -> M B) : M B :=
  fun w =>
    match m w with
    | (Return a, w') => k a w'
    | (Raise e, w') => (Raise e, w')
    end.

(** [try: body  except Exception as exc: handler] *)
Definition try_except {A} (body : M A) (handler : exn -> M A) : M A :=
  fun w =>
    match body w with
    | (Return a, w') => (Return a, w')
    | (Raise e, w') => handler e w'
    end.

Definition lift {A} (r : Result A) : M A := fun w => (r, w).

Definition modify (f : World -> World) : M unit :=
  fun w => (Return tt, f w).

Notation "x <- m ;; k" := (bind m (fun x => k))
  (at level 100, m at next level, right associativity).
Notation "m ;; k" := (bind m (fun _ => k))
  (at level 100, right associativity).

(** *** Library calls *)

Variable env : Env.

(** [print(s)]: the line is written, or nothing is and the encoding
    error is raised. *)
Definition print (s : string) : M unit :=
  match print_error env s with
  | Some e => raise e
  | None => modify (fun w => set_console (console w ++ [s]) w)
  end.

(** [random.choice(seq)] on the module's global generator *)
Definition random_choice (seq : list string) : M string :=
  fun w =>
    match seq with
    | [] => (Raise (Exc IndexError "Cannot choose from an empty sequence"), w)
    | _ :: _ =>
        let '(i, g) := randbelow G (length seq) (rng w) in
        match seq !! i with
        | Some x => (Return x, set_rng g w)
        | None => (Raise (Exc IndexError "list index out of range"),
                   set_rng g w)
        end
    end.

(** [random.seed(a)] *)
Definition random_seed (a : Z) : M unit :=
  modify (set_rng (seed G a)).

(** [img.resize(size, resample)]: decodes the source, then copies or
    resamples it *)
Definition Image_resize (im : PILImage) (size : Z * Z) (r : Resampling)
  : M PILImage :=
  match load_error env im with
  | Some e => raise e
  | None => ret (pil_resize im size r)
  end.

(** [ImageTk.PhotoImage(img)]: a Tk image under the next free name.
    A conversion that fails after Tk created the image has used up the
    name; the image is deleted when the exception is released, before
    the handler ends, and is left out of the table. *)
Definition ImageTk_PhotoImage (im : PILImage) : M PhotoImage :=
  match photo_error env im with
  | Some (e, named) =>
      fun w =>
        (Raise e,
         if named then set_tk (tk_images w) (S (last_id w)) w else w)
  | None =>
      fun w =>
        let n := S (last_id w) in
        (Return {| photo_name := n |},
         set_tk (<[n := im]> (tk_images w)) n w)
  end.

(** [self.image_label.config] with keyword arguments [kw] *)
Definition image_label_config (kw : list kwarg) : M unit :=
  modify (fun w =>
    set_image_label (tk_configure (Misc_options kw) (image_label w)) w).

(** [self.image_label.image = p].  The object held before loses its
    last reference, and its finalizer deletes its Tk image. *)
Definition image_label_set_image (p : PhotoImage) : M unit :=
  modify (fun w =>
    let l := image_label w in
    let w1 :=
      set_image_label {| opt_image := opt_image l; opt_text := opt_text l;
                         attr_image := Some p |} w in
    match attr_image l with
    | Some old => set_tk (delete (photo_name old) (tk_images w1))
                    (last_id w1) w1
    | None => w1
    end).

(** *** randomImageSellector2.py *)

Definition image_folder : string := "enter your image folder".

Definition valid_extensions : list string :=
  [".jpg"; ".jpeg"; ".png"; ".gif"; ".bmp"].

(** The condition of the list comprehension. *)
Definition is_valid (files : string) : bool :=
  Py.endswith (Py.lower files) valid_extensions.

Definition random_image_selector2 : M (option string) :=
  listing <- lift (os_listdir env image_folder) ;;
  let all_files := List.filter is_valid listing in
  if negb (Py.truthy_list all_files) then
    print "No image files found in the specified folder." ;;
    ret None
  else
    random_image_file <- random_choice all_files ;;
    let full_path := Py.os_path_join image_folder random_image_file in
    ret (Some full_path).

(** *** app_ui.py *)

Definition on_button_click : M unit :=
  image_path <- random_image_selector2 ;;
  if negb (Py.truthy_opt_str image_path) then
    image_label_config
      [kw_image None; kw_text (Some "No images found in folder.")]
  else
    (* past the test [image_path] is a non-empty [str] *)
    let image_path := default EmptyString image_path in
    try_except
      (img <- lift (Image_open env image_path) ;;
       img <- Image_resize img (1000, 500)%Z LANCZOS ;;
       photo_image <- ImageTk_PhotoImage img ;;
       image_label_config [kw_image (Some photo_image)] ;;
       image_label_set_image photo_image)
      (fun exc =>
         print ("Error loading image " +:+ image_path +:+ ": "
                +:+ exc_str exc) ;;
         image_label_config
           [kw_image None; kw_text (Some "Error loading image.")]).

Definition _create_frames : M unit :=
  modify (set_frames
    (Some {| frame_width := Some 400%Z; frame_bg := "pink";
             frame_side := "left"; frame_fill := "y";
             frame_expand := false; frame_propagate := false |})
    (Some {| frame_width := None; frame_bg := "light blue";
             frame_side := "right"; frame_fill := "both";
             frame_expand := true; frame_propagate := true |})).

(** The title label and the button are local to the method; the image
    label is kept as an attribute and starts without image and text. *)
Definition _create_widgets : M unit :=
  modify (set_image_label
    {| opt_image := None; opt_text := EmptyString; attr_image := None |}).

(** [ImageViewerApp.__init__] *)
Definition ImageViewerApp_init : M unit :=
  modify (fun w =>
    set_master {| win_title := "Random Image Viewer";
                  win_geometry := "1920x1080";
                  win_bg := "yellow" |} w) ;;
  _create_frames ;;
  _create_widgets ;;
  on_button_click.

End Program.

Arguments master {G} w.
Arguments image_label {G} w.
Arguments tk_images {G} w.
Arguments last_id {G} w.
Arguments console {G} w.
Arguments rng {G} w.
Arguments left_frame {G} w.
Arguments right_frame {G} w.
Arguments display {G} w.

(** ** Worlds and predicates the statements are written with *)

Definition no_files_msg : string :=
  "No image files found in the specified folder.".

(** The pick [random.choice] makes from [all_files] for the index
    [i] that the generator draws. *)
Definition pick (all_files : list string) (i : nat)
  : Result (option string) :=
  match all_files !! i with
  | Some e => Return (Some (Py.os_path_join image_folder e))
  | None => Raise (Exc IndexError "list index out of range")
  end.

Section Outcomes.

Variable G : Generator.

Definition no_images_text : string := "No images found in folder.".
Definition error_text : string := "Error loading image.".

(** The world after [config(image=None, text=s)]. *)
Definition with_text (s : string) (w : World G) : World G :=
  set_image_label G
    {| opt_image := opt_image (image_label w); opt_text := s;
       attr_image := attr_image (image_label w) |} w.

(** The line the [except] block prints. *)
Definition error_line (path : string) (exc : exn) : string :=
  "Error loading image " +:+ path +:+ ": " +:+ exc_str exc.

(** The world after a conversion failed: the name is used up when Tk had
    created the image. *)
Definition bump_id (named : bool) (w : World G) : World G :=
  if named then set_tk G (tk_images w) (S (last_id w)) w else w.

(** The world after the [except] block ran for [exc]. *)
Definition after_error (path : string) (exc : exn) (w : World G) : World G :=
  with_text error_text
    (set_console G
       (console w ++ ["Error loading image " +:+ path +:+ ": "
                      +:+ exc_str exc]) w).

(** The world after the [try] block ran to its end with image [im]. *)
Definition after_image (im : PILImage) (w : World G) : World G :=
  let n := S (last_id w) in
  let l := image_label w in
  let w2 :=
    set_image_label G
      {| opt_image := Some n; opt_text := opt_text l;
         attr_image := Some {| photo_name := n |} |}
      (set_tk G (<[n := im]> (tk_images w)) n w) in
  match attr_image l with
  | Some old => set_tk G (delete (photo_name old) (tk_images w2)) n w2
  | None => w2
  end.

(** The world [__init__] hands to its call of the click handler. *)
Definition built (w : World G) : World G :=
  set_image_label G
    {| opt_image := None; opt_text := EmptyString; attr_image := None |}
    (set_frames G
       (Some {| frame_width := Some 400%Z; frame_bg := "pink";
                frame_side := "left"; frame_fill := "y";
                frame_expand := false; frame_propagate := false |})
       (Some {| frame_width := None; frame_bg := "light blue";
                frame_side := "right"; frame_fill := "both";
                frame_expand := true; frame_propagate := true |})
       (set_master G
          {| win_title := "Random Image Viewer";
             win_geometry := "1920x1080"; win_bg := "yellow" |} w)).

(** Image names in use lie at or below the counter, and an image the
    label is configured with is the live one its attribute holds. *)
Definition wf (w : World G) : Prop :=
  (forall n im, tk_images w !! n = Some im -> n <= last_id w)
  /\ (forall p, attr_image (image_label w) = Some p ->
                photo_name p <= last_id w)
  /\ (forall n, opt_image (image_label w) = Some n ->
                attr_image (image_label w) = Some {| photo_name := n |}
                /\ is_Some (tk_images w !! n)).

Variable env : Env.

(** Opening, decoding or converting the file at [path] raises [exc]. *)
Definition load_fails (path : string) (exc : exn) : Prop :=
  Image_open env path = Raise exc
  \/ exists img,
      Image_open env path = Return img
      /\ (load_error env img = Some exc
          \/ (load_error env img = None
              /\ exists named,
                  photo_error env (pil_resize img (1000, 500)%Z LANCZOS)
                  = Some (exc, named))).

(** The [except] block for [exc], from world [w]: [print] raises and
    nothing else happens, or the line is printed and the text is set. *)
Definition handle_error (path : string) (exc : exn) (w : World G)
  : Result unit * World G :=
  match print_error env (error_line path exc) with
  | Some e => (Raise e, w)
  | None => (Return tt, after_error path exc w)
  end.

End Outcomes.

(** ** main.py and the event loop *)

Section Session.

Variable G : Generator.

(** The running application: the world, and the exceptions that Tk
    callbacks left to [report_callback_exception], oldest first. *)
Record Process : Type := {
  world : World G;
  reported : list exn
}.

(** [tk.Tk()]: the root window as Tk creates it, or the [TclError]
    raised when no display can be opened. *)
Definition tk_Tk (env : Env) : M G unit :=
  match display_error env with
  | Some e => raise G e
  | None =>
      modify G (set_master G {| win_title := "tk";
                                win_geometry := EmptyString;
                                win_bg := EmptyString |})
  end.

(** One press of the button.  Its [command] is [self.on_button_click],
    which Tk calls through [tkinter.CallWrapper]: an exception of the
    handler is reported and the event loop goes on. *)
Definition button_press (env : Env) (p : Process) : Process :=
  match on_button_click G env (world p) with
  | (Return _, w') => {| world := w'; reported := reported p |}
  | (Raise e, w') => {| world := w'; reported := reported p ++ [e] |}
  end.

(** [window.mainloop()]: the presses are handled one after the other,
    each in the outside world of its time, until the window is closed. *)
Definition mainloop (presses : list Env) (p : Process) : Process :=
  fold_left (fun p env => button_press env p) presses p.

(** [main()]: [env0] is the outside world at start-up.  An exception of
    [tk.Tk()] or of the constructor ends the program before the event
    loop starts. *)
Definition main (env0 : Env) (presses : list Env) (w : World G)
  : Result unit * Process :=
  match bind G (tk_Tk env0) (fun _ => ImageViewerApp_init G env0) w with
  | (Return _, w') =>
      (Return tt, mainloop presses {| world := w'; reported := [] |})
  | (Raise e, w') => (Raise e, {| world := w'; reported := [] |})
  end.

(** What holds of the world between two events of a session: the names
    are well formed, a live Tk image is the one the label holds and is
    what [resize((1000, 500), LANCZOS)] returned, the label's text is
    empty or one of the two placeholders, and the window is laid out as
    built. *)
Definition session_inv (w : World G) : Prop :=
  wf G w
  /\ (forall n im, tk_images w !! n = Some im ->
                   attr_image (image_label w) = Some {| photo_name := n |}
                   /\ exists src, im = pil_resize src (1000, 500)%Z LANCZOS)
  /\ (opt_text (image_label w) = EmptyString
      \/ opt_text (image_label w) = no_images_text
      \/ opt_text (image_label w) = error_text)
  /\ master w = master (built G w)
  /\ left_frame w = left_frame (built G w)
  /\ right_frame w = right_frame (built G w).

End Session.

Arguments world {G} p.
Arguments reported {G} p.

(** ** Concrete worlds and environments, to run the model on *)

Module Run.

(** A process that has created its root window and nothing else. *)
Definition start (g : nat) : World counter_gen := {|
  master := {| win_title := "tk"; win_geometry := EmptyString; win_bg := EmptyString |};
  left_frame := None;
  right_frame := None;
  image_label := {| opt_image := None; opt_text := EmptyString;
                    attr_image := None |};
  tk_images := ∅;
  last_id := 0;
  console := [];
  rng := (g : gen_state counter_gen)
|}.

(** Every file opens as a 640x480 image: a palette image when it is a
    GIF, an RGB image otherwise. *)
Definition open_ok (path : string) : Result PILImage :=
  Return (ImageFile path
            (if Py.endswith1 (Py.lower path) ".gif" then Mode_P
             else Mode_RGB)
            (640, 480)%Z).

(** A folder with three pictures among five entries. *)
Definition env_photos : Env := {|
  os_listdir := fun _ =>
    Return ["notes.txt"; "cat.PNG"; "dog.jpeg"; "png"; "sun.Gif"];
  Image_open := open_ok;
  load_error := fun _ => None;
  photo_error := fun _ => None;
  display_error := None;
  stdout_encode_error := fun _ => None
|}.

(** The same folder after its pictures were removed. *)
Definition env_emptied : Env := {|
  os_listdir := fun _ => Return ["notes.txt"; "png"];
  Image_open := open_ok;
  load_error := fun _ => None;
  photo_error := fun _ => None;
  display_error := None;
  stdout_encode_error := fun _ => None
|}.

(** The folder does not exist. *)
Definition env_missing : Env := {|
  os_listdir := fun _ =>
    Raise (Exc FileNotFoundError "[Errno 2] No such file or directory");
  Image_open := open_ok;
  load_error := fun _ => None;
  photo_error := fun _ => None;
  display_error := None;
  stdout_encode_error := fun _ => None
|}.

(** A folder whose only picture cannot be identified as an image. *)
Definition env_corrupt : Env := {|
  os_listdir := fun _ => Return ["bad.png"];
  Image_open := fun _ =>
    Raise (Exc UnidentifiedImageError "cannot identify image file");
  load_error := fun _ => None;
  photo_error := fun _ => None;
  display_error := None;
  stdout_encode_error := fun _ => None
|}.

Definition dog : PILImage :=
  Resized (ImageFile "enter your image folder/dog.jpeg" Mode_RGB
             (640, 480)%Z)
          (1000, 500)%Z LANCZOS.

(** The world once the Viewer was constructed over the three pictures:
    the draw picks [dog.jpeg]. *)
Definition showing_dog : World counter_gen :=
  snd (ImageViewerApp_init counter_gen env_photos (start 4)).

End Run.

(** Further environments for whole sessions. *)

Module Scenario.

(** The only picture is truncated: it opens, but decoding fails. *)
Definition env_truncated : Env := {|
  os_listdir := fun _ => Return ["half.JPG"];
  Image_open := Run.open_ok;
  load_error := fun _ => Some (Exc OSError "image file is truncated");
  photo_error := fun _ => None;
  display_error := None;
  stdout_encode_error := fun _ => None
|}.

(** The only picture has the target size already. *)
Definition env_banner : Env := {|
  os_listdir := fun _ => Return ["banner.png"];
  Image_open := fun path => Return (ImageFile path Mode_RGB (1000, 500)%Z);
  load_error := fun _ => None;
  photo_error := fun _ => None;
  display_error := None;
  stdout_encode_error := fun _ => None
|}.

(** The name of the only picture begins with U+00E9; it cannot be read
    as an image, and standard output is ASCII only. *)
Definition env_latin : Env := {|
  os_listdir := fun _ => Return [String (ascii_of_nat 233) "t.png"];
  Image_open := fun _ =>
    Raise (Exc UnidentifiedImageError "cannot identify image file");
  load_error := fun _ => None;
  photo_error := fun _ => None;
  display_error := None;
  stdout_encode_error := fun _ =>
    Some (Exc UnicodeEncodeError "'ascii' codec can't encode character")
|}.

(** No display can be opened. *)
Definition env_no_display : Env := {|
  os_listdir := fun _ => Return ["cat.PNG"];
  Image_open := Run.open_ok;
  load_error := fun _ => None;
  photo_error := fun _ => None;
  display_error := Some (Exc TclError "no display name");
  stdout_encode_error := fun _ => None
|}.

(** A day at the viewer: three pictures, the folder emptied, the folder
    gone, a broken file, and the pictures back. *)
Definition presses : list Env :=
  [Run.env_photos; Run.env_emptied; Run.env_missing; env_truncated;
   Run.env_corrupt; Run.env_photos].

End Scenario.

(** ** The Selector *)

Section SelectorFacts.

Variable G : Generator.
Variable env : Env.

(** The Selector, path by path. *)
Lemma selector_unfold (w : World G) :
  random_image_selector2 G env w =
  match os_listdir env image_folder with
  | Raise e => (Raise e, w)
  | Return listing =>
      let all_files := List.filter is_valid listing in
      match all_files with
      | [] => (Return None, set_console G (console w ++ [no_files_msg]) w)
      | _ :: _ =>
          (pick all_files
             (fst (randbelow G (length all_files) (rng w))),
           set_rng G (snd (randbelow G (length all_files) (rng w))) w)
      end
  end.
Proof.
  unfold random_image_selector2, bind, lift, pick.
  destruct (os_listdir env image_folder) as [listing|e]; [|reflexivity].
  destruct (List.filter is_valid listing) as [|x xs] eqn:Hf; [reflexivity|].
  cbn [Py.truthy_list negb]. unfold random_choice.
  destruct (randbelow G (length (x :: xs)) (rng w)) as [i g].
  cbn [fst snd].
  destruct ((x :: xs) !! i); reflexivity.
Qed.

Lemma draw_in_range (all_files : list string) (g : gen_state G) :
  all_files <> [] ->
  exists e, all_files !! fst (randbelow G (length all_files) g) = Some e.
Proof.
  intros Hne.
  assert (Hlen : 0 < length all_files) by (destruct all_files; simpl; [congruence|lia]).
  pose proof (randbelow_lt G _ g Hlen) as Hlt.
  apply lookup_lt_is_Some_2 in Hlt. destruct Hlt as [e He]. eauto.
Qed.

Lemma lookup_seq_all {A} (pre l : list A) :
  map (fun i => (pre ++ l) !! i) (seq (length pre) (length l)) = map Some l.
Proof.
  revert pre. induction l as [|x l IH]; intros pre; [reflexivity|].
  simpl. f_equal.
  - rewrite lookup_app_r by lia. now rewrite Nat.sub_diag.
  - specialize (IH (pre ++ [x])).
    rewrite <- app_assoc, length_app in IH. simpl in IH.
    now rewrite Nat.add_1_r in IH.
Qed.

Lemma pick_all (all_files : list string) :
  map (pick all_files) (seq 0 (length all_files))
  = map (fun e => Return (Some (Py.os_path_join image_folder e))) all_files.
Proof.
  pose proof (lookup_seq_all [] all_files) as H. simpl in H.
  unfold pick.
  transitivity
    (map (fun o : option string =>
            match o with
            | Some e => Return (Some (Py.os_path_join image_folder e))
            | None => Raise (Exc IndexError "list index out of range")
            end)
         (map (fun i => all_files !! i) (seq 0 (length all_files)))).
  - now rewrite map_map.
  - rewrite H, map_map. reflexivity.
Qed.

(** The filter depends on a name through its lowercased form only. *)
Lemma is_valid_case_insensitive (a b : string) :
  Py.lower a = Py.lower b -> is_valid a = is_valid b.
Proof. unfold is_valid. now intros ->. Qed.

Lemma path_join_truthy (e : string) :
  Py.truthy_str (Py.os_path_join image_folder e) = true.
Proof.
  unfold Py.os_path_join, Py.startswith.
  destruct e as [|c e]; [reflexivity|].
  cbn [String.prefix].
  destruct (ascii_dec "/"%char c) as [->|Hc].
  - destruct e; reflexivity.
  - reflexivity.
Qed.

(** C1.  For every directory listing with at least one valid entry, the
    Selector returns the configured directory joined with the entry of
    the filtered list at the index the generator draws.  The filtered
    list holds exactly the entries whose lowercased name ends with
    [.jpg], [.jpeg], [.png], [.gif] or [.bmp], so nothing outside it is
    ever returned; and over generator states that realise every index
    once (a uniform draw), every filtered entry is returned once (a
    uniform choice). *)
Theorem selector_uniform_among_valid (w : World G) (listing : list string) :
  os_listdir env image_folder = Return listing ->
  List.filter is_valid listing <> [] ->
  let all_files := List.filter is_valid listing in
  (exists e,
      all_files !! fst (randbelow G (length all_files) (rng w)) = Some e
      /\ fst (random_image_selector2 G env w)
         = Return (Some (Py.os_path_join image_folder e))
      /\ In e listing
      /\ Py.endswith (Py.lower e)
           [".jpg"; ".jpeg"; ".png"; ".gif"; ".bmp"] = true)
  /\ (forall e,
        In e all_files <->
        In e listing
        /\ Py.endswith (Py.lower e)
             [".jpg"; ".jpeg"; ".png"; ".gif"; ".bmp"] = true)
  /\ (forall gs : list (gen_state G),
        Permutation
          (map (fun g => fst (randbelow G (length all_files) g)) gs)
          (seq 0 (length all_files)) ->
        Permutation
          (map (fun g => fst (random_image_selector2 G env (set_rng G g w)))
               gs)
          (map (fun e => Return (Some (Py.os_path_join image_folder e)))
               all_files)).
Proof.
  intros Hls Hne. cbn zeta.
  remember (List.filter is_valid listing) as all_files eqn:Hall.
  assert (Hrun : forall g,
             fst (random_image_selector2 G env (set_rng G g w))
             = pick all_files (fst (randbelow G (length all_files) g))).
  { intros g. rewrite selector_unfold, Hls. cbn zeta. rewrite <- Hall.
    destruct all_files; [congruence|reflexivity]. }
  assert (Hmem : forall e,
             In e all_files <->
             In e listing
             /\ Py.endswith (Py.lower e)
                  [".jpg"; ".jpeg"; ".png"; ".gif"; ".bmp"] = true).
  { intros e. rewrite Hall, filter_In. reflexivity. }
  split; [|split].
  - destruct (draw_in_range all_files (rng w) Hne) as [e He].
    exists e. split; [exact He|].
    assert (Hin : In e all_files).
    { apply list_elem_of_In. eapply list_elem_of_lookup_2. exact He. }
    apply Hmem in Hin. destruct Hin as [Hin Hsuf].
    split; [|split; assumption].
    rewrite selector_unfold, Hls. cbn zeta. rewrite <- Hall.
    destruct all_files as [|x xs]; [congruence|].
    cbn [fst]. unfold pick. now rewrite He.
  - exact Hmem.
  - intros gs Hperm.
    rewrite (map_ext _ _ Hrun).
    rewrite <- pick_all, <- (map_map _ (pick all_files)).
    now apply Permutation_map.
Qed.

(** C4.  When no entry of the listing matches a recognized suffix, the
    Selector returns [None]; it raises nothing, and its only effect is
    the line it prints. *)
Theorem selector_none_when_no_match (w : World G) (listing : list string) :
  os_listdir env image_folder = Return listing ->
  (forall e, In e listing ->
             Py.endswith (Py.lower e) valid_extensions = false) ->
  random_image_selector2 G env w
  = (Return None, set_console G (console w ++ [no_files_msg]) w).
Proof.
  intros Hls Hnone.
  rewrite selector_unfold, Hls. cbn zeta.
  destruct (List.filter is_valid listing) as [|x xs] eqn:Hf; [reflexivity|].
  assert (Hx : In x (List.filter is_valid listing)) by (rewrite Hf; now left).
  apply filter_In in Hx. destruct Hx as [Hin Hv].
  unfold is_valid in Hv. rewrite (Hnone x Hin) in Hv. discriminate.
Qed.

End SelectorFacts.

(** C7.  Two runs of the Selector that start from the same seed and see
    the same directory listing return the same value, whatever else
    differs between the two processes, and leave the generator in the
    same state. *)
Theorem selector_deterministic
    (G : Generator) (env env' : Env) (w1 w2 : World G) (a : Z)
    (listing : list string) :
  os_listdir env image_folder = Return listing ->
  os_listdir env' image_folder = Return listing ->
  let run1 :=
    bind G (random_seed G a) (fun _ => random_image_selector2 G env) w1 in
  let run2 :=
    bind G (random_seed G a) (fun _ => random_image_selector2 G env') w2 in
  fst run1 = fst run2 /\ rng (snd run1) = rng (snd run2).
Proof.
  intros H1 H2. cbn zeta.
  unfold bind, random_seed, modify.
  rewrite !selector_unfold, H1, H2. cbn zeta.
  destruct (List.filter is_valid listing); split; reflexivity.
Qed.

(** ** Resizing *)

Lemma size_eqb_eq (a b : Z * Z) : size_eqb a b = true <-> a = b.
Proof.
  destruct a as [a1 a2], b as [b1 b2]. unfold size_eqb. cbn [fst snd].
  rewrite andb_true_iff, !Z.eqb_eq. split.
  - now intros [-> ->].
  - now intros [= -> ->].
Qed.

(** [resize] returns an image of the size asked for. *)
Lemma pil_resize_size (im : PILImage) (size : Z * Z) (r : Resampling) :
  im_size (pil_resize im size r) = size.
Proof.
  unfold pil_resize.
  destruct (size_eqb (im_size im) size) eqn:Hs; [|reflexivity].
  apply size_eqb_eq in Hs. exact Hs.
Qed.

(** The filter [resize] applies. *)
Lemma pil_resize_resample (im : PILImage) (size : Z * Z) (r : Resampling) :
  im_resample (pil_resize im size r)
  = if size_eqb (im_size im) size then None
    else if mode_1_or_P (im_mode im) then Some NEAREST
    else Some r.
Proof.
  unfold pil_resize.
  destruct (size_eqb (im_size im) size); [reflexivity|].
  destruct (mode_1_or_P (im_mode im)); reflexivity.
Qed.

(** ** The Viewer *)

Section ViewerFacts.

Variable G : Generator.
Variable env : Env.

(** The click handler, path by path. *)
Lemma click_unfold (w : World G) :
  on_button_click G env w =
  match random_image_selector2 G env w with
  | (Raise e, w1) => (Raise e, w1)
  | (Return image_path, w1) =>
      if Py.truthy_opt_str image_path then
        let path := default EmptyString image_path in
        match Image_open env path with
        | Raise e => handle_error G env path e w1
        | Return img =>
            match load_error env img with
            | Some e => handle_error G env path e w1
            | None =>
                let img' := pil_resize img (1000, 500)%Z LANCZOS in
                match photo_error env img' with
                | Some (e, named) =>
                    handle_error G env path e (bump_id G named w1)
                | None => (Return tt, after_image G img' w1)
                end
            end
        end
      else (Return tt, with_text G no_images_text w1)
  end.
Proof.
  unfold on_button_click. unfold bind at 1.
  destruct (random_image_selector2 G env w) as [[image_path|e] w1];
    [|reflexivity].
  destruct (Py.truthy_opt_str image_path); cbn [negb]; [|reflexivity].
  unfold try_except, bind, lift, Image_resize, ImageTk_PhotoImage.
  assert (Hexc : forall path exc (W : World G),
             (let (r, w') := print G env (error_line path exc) W in
              match r with
              | Return _ =>
                  image_label_config G
                    [kw_image None; kw_text (Some "Error loading image.")] w'
              | Raise e => (Raise e, w')
              end)
             = handle_error G env path exc W).
  { intros path exc W. unfold print, handle_error.
    destruct (print_error env (error_line path exc)); reflexivity. }
  destruct (Image_open env (default EmptyString image_path)) as [img|e];
    [|apply Hexc].
  destruct (load_error env img) as [e|]; [apply Hexc|].
  unfold ret.
  destruct (photo_error env (pil_resize img (1000, 500)%Z LANCZOS))
    as [[e named]|]; [apply Hexc|].
  unfold image_label_config, image_label_set_image, modify, after_image.
  cbn. destruct (attr_image (image_label w1)); reflexivity.
Qed.

(** The [except] block either raises from [print], touching nothing, or
    prints its line and sets the error text. *)
Lemma handle_error_cases (path : string) (exc : exn) (W : World G) :
  (exists e, print_error env (error_line path exc) = Some e
             /\ handle_error G env path exc W = (Raise e, W))
  \/ (print_error env (error_line path exc) = None
      /\ handle_error G env path exc W
         = (Return tt, after_error G path exc W)).
Proof.
  unfold handle_error.
  destruct (print_error env (error_line path exc)) as [e|]; eauto.
Qed.

Lemma handle_error_frame (path : string) (exc : exn) (W : World G) :
  let W' := snd (handle_error G env path exc W) in
  master W' = master W /\ left_frame W' = left_frame W
  /\ right_frame W' = right_frame W
  /\ opt_image (image_label W') = opt_image (image_label W)
  /\ attr_image (image_label W') = attr_image (image_label W)
  /\ tk_images W' = tk_images W /\ last_id W' = last_id W
  /\ rng W' = rng W
  /\ (opt_text (image_label W') = opt_text (image_label W)
      \/ opt_text (image_label W') = error_text).
Proof.
  cbn zeta.
  destruct (handle_error_cases path exc W) as [(e & _ & ->)|[_ ->]];
    cbn; repeat split; auto.
Qed.

Lemma bump_id_frame (named : bool) (W : World G) :
  master (bump_id G named W) = master W
  /\ left_frame (bump_id G named W) = left_frame W
  /\ right_frame (bump_id G named W) = right_frame W
  /\ image_label (bump_id G named W) = image_label W
  /\ tk_images (bump_id G named W) = tk_images W
  /\ last_id W <= last_id (bump_id G named W)
  /\ console (bump_id G named W) = console W
  /\ rng (bump_id G named W) = rng W.
Proof. destruct named; cbn; repeat split; lia. Qed.

(** The Selector touches the console and the generator only. *)
Lemma selector_frame (w : World G) :
  let w1 := snd (random_image_selector2 G env w) in
  master w1 = master w /\ left_frame w1 = left_frame w
  /\ right_frame w1 = right_frame w /\ image_label w1 = image_label w
  /\ tk_images w1 = tk_images w /\ last_id w1 = last_id w.
Proof.
  cbn zeta. rewrite selector_unfold.
  destruct (os_listdir env image_folder) as [listing|e]; cbn zeta.
  - destruct (List.filter is_valid listing); cbn; repeat split.
  - cbn; repeat split.
Qed.

(** The Selector returns [None] on one path only: no valid entry. *)
Lemma selector_none_inv (w : World G) :
  fst (random_image_selector2 G env w) = Return None ->
  snd (random_image_selector2 G env w)
  = set_console G (console w ++ [no_files_msg]) w.
Proof.
  rewrite selector_unfold.
  destruct (os_listdir env image_folder) as [listing|e]; cbn zeta;
    [|discriminate].
  destruct (List.filter is_valid listing) as [|x xs] eqn:Hf;
    [reflexivity|].
  cbn [fst snd]. unfold pick.
  destruct (draw_in_range G (x :: xs) (rng w)) as [e He]; [discriminate|].
  rewrite He. discriminate.
Qed.

(** A path the Selector returns is never the empty string. *)
Lemma selector_some_truthy (w : World G) (path : string) :
  fst (random_image_selector2 G env w) = Return (Some path) ->
  Py.truthy_str path = true.
Proof.
  rewrite selector_unfold.
  destruct (os_listdir env image_folder) as [listing|e]; cbn zeta;
    [|discriminate].
  destruct (List.filter is_valid listing) as [|x xs]; [discriminate|].
  cbn [fst]. unfold pick.
  destruct ((x :: xs) !! _); [|discriminate].
  intros [= <-]. apply path_join_truthy.
Qed.

(** The Selector raises only what the directory listing raised. *)
Lemma selector_raise_inv (w : World G) (e : exn) :
  fst (random_image_selector2 G env w) = Raise e ->
  os_listdir env image_folder = Raise e.
Proof.
  rewrite selector_unfold.
  destruct (os_listdir env image_folder) as [listing|e']; cbn zeta.
  - destruct (List.filter is_valid listing) as [|x xs] eqn:Hf;
      [discriminate|].
    cbn [fst]. unfold pick.
    destruct (draw_in_range G (x :: xs) (rng w)) as [y Hy]; [discriminate|].
    rewrite Hy. discriminate.
  - cbn [fst]. congruence.
Qed.

Lemma after_image_lookup (im : PILImage) (w : World G) :
  (forall p, attr_image (image_label w) = Some p ->
             photo_name p <= last_id w) ->
  tk_images (after_image G im w) !! S (last_id w) = Some im.
Proof.
  intros Hattr. unfold after_image. cbn zeta.
  destruct (attr_image (image_label w)) as [old|] eqn:Hold; cbn.
  - specialize (Hattr old eq_refl).
    rewrite lookup_delete_ne by lia. apply lookup_insert_eq.
  - apply lookup_insert_eq.
Qed.

Lemma after_image_display (im : PILImage) (w : World G) :
  (forall p, attr_image (image_label w) = Some p ->
             photo_name p <= last_id w) ->
  display (after_image G im w) = ShowsImage im.
Proof.
  intros Hattr. pose proof (after_image_lookup im w Hattr) as Hl.
  unfold display.
  assert (Ho : opt_image (image_label (after_image G im w))
               = Some (S (last_id w))).
  { unfold after_image. cbn zeta.
    destruct (attr_image (image_label w)); reflexivity. }
  now rewrite Ho, Hl.
Qed.

End ViewerFacts.

Section ViewerTheorems.

Variable G : Generator.
Variable env : Env.

Lemma init_unfold (w : World G) :
  ImageViewerApp_init G env w = on_button_click G env (built G w).
Proof. reflexivity. Qed.

Ltac selector_cases w r w1 Hsel :=
  rewrite click_unfold;
  pose proof (selector_frame G env w) as Hfr; cbn zeta in Hfr;
  destruct (random_image_selector2 G env w) as [r w1] eqn:Hsel;
  cbn [fst snd] in Hfr;
  destruct Hfr as (Hm & Hlf & Hrf & Hlbl & Htk & Hid).

Lemma click_preserves_wf (w : World G) :
  wf G w -> wf G (snd (on_button_click G env w)).
Proof.
  intros (Hkeys & Hattr & Hopt).
  assert (Hwf1 : forall W : World G,
             opt_image (image_label W) = opt_image (image_label w) ->
             attr_image (image_label W) = attr_image (image_label w) ->
             tk_images W = tk_images w ->
             last_id w <= last_id W -> wf G W).
  { intros W Ho Ha Ht Hi. unfold wf. rewrite Ho, Ha, Ht.
    split; [|split; [|exact Hopt]].
    - intros n im Hn. apply Hkeys in Hn. lia.
    - intros p0 Hp. apply Hattr in Hp. lia. }
  selector_cases w r w1 Hsel.
  assert (Hw1 : wf G w1) by (apply Hwf1; rewrite ?Hlbl; auto; lia).
  destruct r as [image_path|e]; [|exact Hw1].
  destruct (Py.truthy_opt_str image_path);
    [|apply Hwf1; cbn; rewrite ?Hlbl; auto; lia].
  cbn zeta.
  assert (Herr : forall p e (W : World G),
             image_label W = image_label w1 -> tk_images W = tk_images w1 ->
             last_id w1 <= last_id W ->
             wf G (snd (handle_error G env p e W))).
  { intros p e W Hl Ht Hi.
    destruct (handle_error_frame G env p e W)
      as (_ & _ & _ & Ho' & Ha' & Ht' & Hi' & _).
    apply Hwf1; rewrite ?Ho', ?Ha', ?Ht', ?Hi', ?Hl, ?Ht, ?Hlbl; auto; lia. }
  destruct (Image_open env _) as [img|e]; [|now apply Herr].
  destruct (load_error env img) as [e|]; [now apply Herr|].
  destruct (photo_error env _) as [[e named]|].
  { destruct (bump_id_frame G named w1) as (_ & _ & _ & Hl & Ht & Hi & _).
    now apply Herr. }
  cbn [snd].
  set (img' := pil_resize img (1000, 500)%Z LANCZOS).
  assert (Hattr1 : forall p, attr_image (image_label w1) = Some p ->
                             photo_name p <= last_id w1).
  { rewrite Hlbl, Hid. exact Hattr. }
  pose proof (after_image_lookup G img' w1 Hattr1) as Hnew.
  assert (Hshape :
            last_id (after_image G img' w1) = S (last_id w1)
            /\ opt_image (image_label (after_image G img' w1))
               = Some (S (last_id w1))
            /\ attr_image (image_label (after_image G img' w1))
               = Some {| photo_name := S (last_id w1) |}
            /\ forall n im, tk_images (after_image G img' w1) !! n = Some im ->
                            n = S (last_id w1)
                            \/ tk_images w1 !! n = Some im).
  { unfold after_image. cbn zeta.
    destruct (attr_image (image_label w1)) as [old|]; cbn;
      repeat split; intros n im Hn.
    - apply lookup_delete_Some in Hn. destruct Hn as [_ Hn].
      apply lookup_insert_Some in Hn. destruct Hn as [[<- _]|[_ Hn]]; auto.
    - apply lookup_insert_Some in Hn. destruct Hn as [[<- _]|[_ Hn]]; auto. }
  destruct Hshape as (Hid' & Hopt' & Hattr' & Hkeys').
  unfold wf. rewrite Hid', Hopt', Hattr'. split; [|split].
  - intros n im Hn. destruct (Hkeys' n im Hn) as [->|Hn1]; [lia|].
    rewrite Htk in Hn1. apply Hkeys in Hn1. lia.
  - intros p [= <-]. simpl. lia.
  - intros n [= <-]. rewrite Hnew. eauto.
Qed.


(** What the label draws after [config(image=None, text=s)]: the text
    when no image was configured, and what it drew before otherwise. *)
Lemma with_text_display (s : string) (w : World G) :
  display (with_text G s w)
  = match opt_image (image_label w) with
    | None => ShowsText s
    | Some _ => display w
    end.
Proof.
  unfold display, with_text. cbn.
  destruct (opt_image (image_label w)); reflexivity.
Qed.

Lemma absence_display (w : World G) :
  fst (random_image_selector2 G env w) = Return None ->
  display (snd (on_button_click G env w))
  = match opt_image (image_label w) with
    | None => ShowsText "No images found in folder."
    | Some _ => display w
    end.
Proof.
  intros Hnone. pose proof (selector_none_inv G env w Hnone) as Hw1.
  rewrite click_unfold.
  destruct (random_image_selector2 G env w) as [r w1].
  cbn [fst snd] in *. subst r w1. cbn [Py.truthy_opt_str snd].
  rewrite with_text_display. reflexivity.
Qed.

(** Whatever step of the [try] block raises, when the line of the
    [except] block can be printed the handler returns, the failure is on
    the console and the label's text is the error text; the label draws
    that text unless an image was configured before. *)
Lemma load_failure_outcome (w : World G) (path : string) (exc : exn) :
  fst (random_image_selector2 G env w) = Return (Some path) ->
  load_fails env path exc ->
  print_error env (error_line path exc) = None ->
  let w1 := snd (random_image_selector2 G env w) in
  let w' := snd (on_button_click G env w) in
  fst (on_button_click G env w) = Return tt
  /\ console w'
     = console w1 ++ ["Error loading image " +:+ path +:+ ": "
                      +:+ exc_str exc]
  /\ opt_text (image_label w') = "Error loading image."
  /\ display w'
     = match opt_image (image_label w) with
       | None => ShowsText "Error loading image."
       | Some _ => display w
       end.
Proof.
  intros Hsel Hfail Hprint. cbn zeta.
  pose proof (selector_some_truthy G env w path Hsel) as Htruthy.
  selector_cases w r w1 Hsel'.
  cbn [fst] in Hsel. subst r.
  cbn [Py.truthy_opt_str from_option id snd]. rewrite Htruthy. cbn zeta.
  assert (Hgoal : forall W : World G,
            image_label W = image_label w1 -> tk_images W = tk_images w1 ->
            console W = console w1 ->
            fst (handle_error G env path exc W) = Return tt
            /\ console (snd (handle_error G env path exc W))
               = console w1 ++ ["Error loading image " +:+ path +:+ ": "
                                +:+ exc_str exc]
            /\ opt_text (image_label (snd (handle_error G env path exc W)))
               = "Error loading image."
            /\ display (snd (handle_error G env path exc W))
               = match opt_image (image_label w) with
                 | None => ShowsText "Error loading image."
                 | Some _ => display w
                 end).
  { intros W HlW HtW HcW. unfold handle_error. rewrite Hprint. cbn [fst snd].
    split; [reflexivity|]. split; [cbn; now rewrite HcW|].
    split; [reflexivity|].
    unfold after_error. rewrite with_text_display. unfold display. cbn.
    now rewrite HlW, HtW, Hlbl, Htk. }
  destruct Hfail as [Ho|(img & Ho & [Hl|(Hl & named & Hp)])]; rewrite Ho.
  - now apply Hgoal.
  - rewrite Hl. now apply Hgoal.
  - rewrite Hl, Hp.
    destruct (bump_id_frame G named w1) as (_ & _ & _ & HlW & HtW & _ & HcW & _).
    now apply Hgoal.
Qed.

(** C3 (as amended).  When the directory listing raises, because the
    directory is missing or unreadable, neither the Selector nor the
    click handler handles it: the exception leaves both unchanged, with
    nothing printed and no state touched.  That is another outcome than
    the [None] returned when no entry matches. *)
Theorem listdir_error_propagates (w : World G) (e : exn) :
  os_listdir env image_folder = Raise e ->
  random_image_selector2 G env w = (Raise e, w)
  /\ on_button_click G env w = (Raise e, w)
  /\ fst (random_image_selector2 G env w) <> Return None.
Proof.
  intros Hls.
  assert (Hsel : random_image_selector2 G env w = (Raise e, w)).
  { rewrite selector_unfold, Hls. reflexivity. }
  split; [exact Hsel|]. split.
  - rewrite click_unfold, Hsel. reflexivity.
  - rewrite Hsel. discriminate.
Qed.

(** The handler raises what the directory listing raised, or what
    printing the line of the [except] block raised. *)
Lemma handler_raise_iff (w : World G) (e : exn) :
  fst (on_button_click G env w) = Raise e
  <-> os_listdir env image_folder = Raise e
      \/ exists path exc,
           fst (random_image_selector2 G env w) = Return (Some path)
           /\ load_fails env path exc
           /\ print_error env (error_line path exc) = Some e.
Proof.
  split.
  - pose proof (selector_raise_inv G env w e) as Hinv.
    selector_cases w r w1 Hsel. cbn [fst] in Hinv.
    destruct r as [image_path|e'];
      [|intros [= ->]; left; now apply Hinv].
    destruct image_path as [path|]; [|discriminate].
    cbn [Py.truthy_opt_str from_option id].
    destruct (Py.truthy_str path); [|discriminate].
    cbn zeta.
    assert (Herr : forall exc (W : World G),
               load_fails env path exc ->
               fst (handle_error G env path exc W) = Raise e ->
               os_listdir env image_folder = Raise e
               \/ exists path0 exc0,
                    Return (Some path) = Return (Some path0)
                    /\ load_fails env path0 exc0
                    /\ print_error env (error_line path0 exc0) = Some e).
    { intros exc W Hfail.
      destruct (handle_error_cases G env path exc W)
        as [(e' & Hp & ->)|[_ ->]]; [|discriminate].
      intros [= ->]. right. exists path, exc. auto. }
    destruct (Image_open env path) as [img|e1] eqn:Hopen.
    + destruct (load_error env img) as [e1|] eqn:Hload.
      * apply Herr. right. exists img. auto.
      * destruct (photo_error env _) as [[e1 named]|] eqn:Hphoto;
          [|discriminate].
        apply Herr. right. exists img. split; [exact Hopen|].
        right. split; [exact Hload|]. now exists named.
    + apply Herr. now left.
  - intros [Hls|(path & exc & Hsel & Hfail & Hprint)].
    + rewrite click_unfold, selector_unfold, Hls. reflexivity.
    + pose proof (selector_some_truthy G env w path Hsel) as Htruthy.
      rewrite click_unfold.
      destruct (random_image_selector2 G env w) as [r w1].
      cbn [fst] in Hsel. subst r.
      cbn [Py.truthy_opt_str from_option id]. rewrite Htruthy. cbn zeta.
      unfold handle_error.
      destruct Hfail as [Ho|(img & Ho & [Hl|(Hl & named & Hp)])]; rewrite Ho.
      * now rewrite Hprint.
      * now rewrite Hl, Hprint.
      * now rewrite Hl, Hp, Hprint.
Qed.

(** C5 (as amended).  When the Selector returns a path that opens,
    decodes and converts without error, the handler returns with the
    label drawing what [resize((1000, 500), LANCZOS)] returned for the
    opened file: an image of exactly 1000x500, resampled with LANCZOS
    when the file's image is neither of mode 1 or P nor 1000x500 already.
    That image is a new Tk image, it is the one the label's [image]
    attribute now holds, and the image held before is gone from Tk's
    table: it replaces whatever the label showed. *)
Theorem click_shows_resized_image
    (w : World G) (path : string) (img : PILImage) :
  wf G w ->
  fst (random_image_selector2 G env w) = Return (Some path) ->
  Image_open env path = Return img ->
  load_error env img = None ->
  photo_error env (pil_resize img (1000, 500)%Z LANCZOS) = None ->
  let w' := snd (on_button_click G env w) in
  let shown := pil_resize img (1000, 500)%Z LANCZOS in
  fst (on_button_click G env w) = Return tt
  /\ display w' = ShowsImage shown
  /\ im_size shown = (1000, 500)%Z
  /\ (size_eqb (im_size img) (1000, 500)%Z = false ->
      mode_1_or_P (im_mode img) = false ->
      im_resample shown = Some LANCZOS)
  /\ (exists n,
        opt_image (image_label w') = Some n
        /\ attr_image (image_label w') = Some {| photo_name := n |}
        /\ tk_images w !! n = None
        /\ tk_images w' !! n = Some shown)
  /\ (forall old, attr_image (image_label w) = Some old ->
                  tk_images w' !! photo_name old = None).
Proof.
  intros (Hkeys & Hattr & Hopt) Hsel Hopen Hload Hphoto. cbn zeta.
  pose proof (selector_some_truthy G env w path Hsel) as Htruthy.
  selector_cases w r w1 Hsel'.
  cbn [fst] in Hsel. subst r.
  cbn [Py.truthy_opt_str from_option id]. rewrite Htruthy. cbn zeta.
  rewrite Hopen, Hload, Hphoto. cbn [fst snd].
  set (shown := pil_resize img (1000, 500)%Z LANCZOS).
  assert (Hattr1 : forall p, attr_image (image_label w1) = Some p ->
                             photo_name p <= last_id w1).
  { rewrite Hlbl, Hid. exact Hattr. }
  split; [reflexivity|].
  split; [now apply after_image_display|].
  split; [apply pil_resize_size|]. split.
  { intros Hsz Hmode. unfold shown.
    now rewrite pil_resize_resample, Hsz, Hmode. }
  split.
  - exists (S (last_id w1)).
    pose proof (after_image_lookup G shown w1 Hattr1) as Hnew.
    split; [|split; [|split; [|exact Hnew]]].
    + unfold after_image. cbn zeta.
      destruct (attr_image (image_label w1)); reflexivity.
    + unfold after_image. cbn zeta.
      destruct (attr_image (image_label w1)); reflexivity.
    + rewrite Hid. destruct (tk_images w !! S (last_id w)) as [im|] eqn:Hl;
        [|reflexivity].
      apply Hkeys in Hl. lia.
  - intros old Hold. unfold after_image. cbn zeta.
    rewrite Hlbl, Hold. cbn. apply lookup_delete_eq.
Qed.

(** C8 (as amended).  Every Tk image that a run of the handler adds is
    what [resize((1000, 500), LANCZOS)] returned for the opened file,
    whatever its dimensions: it is exactly 1000x500 and it is the image
    the label shows when the handler returns.  The filter asked for is
    always LANCZOS; the pixels are resampled with it unless the file's
    image is of mode 1 or P, where NEAREST is applied, or is 1000x500
    already, where it is copied. *)
Theorem new_image_is_1000x500_resized
    (w : World G) (n : nat) (im : PILImage) :
  tk_images w !! n = None ->
  tk_images (snd (on_button_click G env w)) !! n = Some im ->
  (exists src,
      im = pil_resize src (1000, 500)%Z LANCZOS
      /\ im_resample im
         = if size_eqb (im_size src) (1000, 500)%Z then None
           else if mode_1_or_P (im_mode src) then Some NEAREST
           else Some LANCZOS)
  /\ im_size im = (1000, 500)%Z
  /\ display (snd (on_button_click G env w)) = ShowsImage im.
Proof.
  intros Hold. selector_cases w r w1 Hsel.
  assert (Hold1 : tk_images w1 !! n = None) by now rewrite Htk.
  assert (Hsame : forall w2 : World G,
             tk_images w2 = tk_images w1 ->
             tk_images w2 !! n = Some im -> False).
  { intros w2 -> H. congruence. }
  destruct r as [image_path|e]; [|intros H; now destruct (Hsame w1 eq_refl)].
  destruct (Py.truthy_opt_str image_path);
    [|intros H; now destruct (Hsame _ eq_refl H)].
  cbn zeta.
  assert (Herr : forall p e (W : World G),
             tk_images W = tk_images w1 ->
             tk_images (snd (handle_error G env p e W)) !! n = Some im ->
             False).
  { intros p e W HW.
    destruct (handle_error_frame G env p e W)
      as (_ & _ & _ & _ & _ & Ht' & _).
    intros H. apply (Hsame _ (eq_trans Ht' HW) H). }
  destruct (Image_open env _) as [img|e];
    [|intros H; now destruct (Herr _ _ _ eq_refl H)].
  destruct (load_error env img) as [e|];
    [intros H; now destruct (Herr _ _ _ eq_refl H)|].
  destruct (photo_error env _) as [[e named]|].
  { destruct (bump_id_frame G named w1) as (_ & _ & _ & _ & Ht & _).
    intros H. now destruct (Herr _ _ _ Ht H). }
  cbn [snd]. unfold display, after_image. cbn zeta.
  assert (Hres : forall x : PILImage,
             x = pil_resize img (1000, 500)%Z LANCZOS ->
             (exists src,
                 x = pil_resize src (1000, 500)%Z LANCZOS
                 /\ im_resample x
                    = if size_eqb (im_size src) (1000, 500)%Z then None
                      else if mode_1_or_P (im_mode src) then Some NEAREST
                      else Some LANCZOS)
             /\ im_size x = (1000, 500)%Z).
  { intros x ->. split; [|apply pil_resize_size].
    exists img. split; [reflexivity|apply pil_resize_resample]. }
  destruct (attr_image (image_label w1)) as [old|]; cbn; intros Hn.
  - apply lookup_delete_Some in Hn. destruct Hn as [Hne Hn].
    apply lookup_insert_Some in Hn.
    destruct Hn as [[<- Him]|[_ Hn]]; [|congruence].
    rewrite lookup_delete_ne by exact Hne. rewrite lookup_insert_eq.
    destruct (Hres im (eq_sym Him)) as [H1 H2].
    rewrite Him. auto.
  - apply lookup_insert_Some in Hn.
    destruct Hn as [[<- Him]|[_ Hn]]; [|congruence].
    rewrite lookup_insert_eq.
    destruct (Hres im (eq_sym Him)) as [H1 H2].
    rewrite Him. auto.
Qed.

(** C9.  The constructor ends by running the click handler once on the
    widgets it has just built.  Whenever it returns, the label already
    draws a 1000x500 image or one of the two placeholder texts.  It
    raises only what the directory listing raised, or what printing the
    line of the [except] block raised. *)
Theorem init_runs_one_cycle (w : World G) :
  ImageViewerApp_init G env w = on_button_click G env (built G w)
  /\ match ImageViewerApp_init G env w with
     | (Return _, w') =>
         (exists im, display w' = ShowsImage im
                     /\ im_size im = (1000, 500)%Z)
         \/ display w' = ShowsText "No images found in folder."
         \/ display w' = ShowsText "Error loading image."
     | (Raise e, _) =>
         os_listdir env image_folder = Raise e
         \/ exists path exc,
              fst (random_image_selector2 G env (built G w))
              = Return (Some path)
              /\ load_fails env path exc
              /\ print_error env (error_line path exc) = Some e
     end.
Proof.
  split; [reflexivity|]. rewrite init_unfold.
  pose proof (handler_raise_iff (built G w)) as Hraise.
  destruct (on_button_click G env (built G w)) as [[u|e] w'] eqn:Hclick;
    [|now apply Hraise].
  clear Hraise. destruct u. revert Hclick.
  selector_cases (built G w) r w1 Hsel.
  destruct r as [image_path|e]; [|discriminate].
  assert (Hopt : opt_image (image_label w1) = None) by now rewrite Hlbl.
  assert (Hattr : attr_image (image_label w1) = None) by now rewrite Hlbl.
  assert (Hshow : forall s (w2 : World G),
             opt_image (image_label w2) = None ->
             display (with_text G s w2) = ShowsText s).
  { intros s w2 H. unfold display, with_text. cbn. now rewrite H. }
  destruct (Py.truthy_opt_str image_path);
    [|intros [= <-]; right; left; now apply Hshow].
  cbn zeta.
  assert (Herr : forall p e (W : World G),
             image_label W = image_label w1 ->
             handle_error G env p e W = (Return tt, w') ->
             display w' = ShowsText "Error loading image.").
  { intros p e W HW.
    destruct (handle_error_cases G env p e W)
      as [(e' & _ & ->)|[_ ->]]; [discriminate|].
    intros [= <-]. unfold after_error. apply Hshow. cbn. now rewrite HW. }
  destruct (Image_open env _) as [img|e];
    [|intros H; right; right; now apply (Herr _ _ _ eq_refl H)].
  destruct (load_error env img) as [e|];
    [intros H; right; right; now apply (Herr _ _ _ eq_refl H)|].
  destruct (photo_error env _) as [[e named]|].
  { destruct (bump_id_frame G named w1) as (_ & _ & _ & HW & _).
    intros H; right; right; now apply (Herr _ _ _ HW H). }
  intros [= <-]. left.
  exists (pil_resize img (1000, 500)%Z LANCZOS).
  split; [|apply pil_resize_size].
  apply after_image_display. intros p Hp. congruence.
Qed.

(** C10.  On the absence branch the handler returns at once: the world
    it leaves is the one the Selector left, with the label's text set.
    The label's [-image] option and its [image] attribute, Tk's image
    table, the window, the frames and the generator are as before. *)
Theorem absence_branch_frame (w : World G) :
  fst (random_image_selector2 G env w) = Return None ->
  let w' := snd (on_button_click G env w) in
  on_button_click G env w
  = (Return tt,
     with_text G "No images found in folder."
       (snd (random_image_selector2 G env w)))
  /\ opt_text (image_label w') = "No images found in folder."
  /\ attr_image (image_label w') = attr_image (image_label w)
  /\ opt_image (image_label w') = opt_image (image_label w)
  /\ tk_images w' = tk_images w
  /\ last_id w' = last_id w
  /\ master w' = master w
  /\ left_frame w' = left_frame w
  /\ right_frame w' = right_frame w
  /\ rng w' = rng w.
Proof.
  intros Hnone. cbn zeta.
  pose proof (selector_none_inv G env w Hnone) as Hw1.
  rewrite click_unfold.
  destruct (random_image_selector2 G env w) as [r w1].
  cbn [fst snd] in *. subst r w1.
  cbn. repeat split.
Qed.

End ViewerTheorems.

(** ** Runs of the model *)

Module Runs.

Import Run.

Example lower_examples :
  map Py.lower ["A.JPG"; "b.Png"; "Z9_[.GIF"]
  = ["a.jpg"; "b.png"; "z9_[.gif"].
Proof. reflexivity. Qed.

(** U+00C9 lowers to U+00E9; U+00D7 and U+00DF stay. *)
Example lower_latin1 :
  map (fun n => nat_of_ascii (Py.lower_char (ascii_of_nat n)))
      [201; 215; 223; 222; 192]
  = [233; 215; 223; 254; 224].
Proof. reflexivity. Qed.

Example is_valid_examples :
  map is_valid ["cat.PNG"; "notes.txt"; "png"; ".bmp"; "a.jpg.txt"; "x.JpEg"]
  = [true; false; false; true; false; true].
Proof. reflexivity. Qed.

Example selector_photos :
  fst (random_image_selector2 counter_gen env_photos (start 4))
  = Return (Some "enter your image folder/dog.jpeg").
Proof. reflexivity. Qed.

Example showing_dog_display : display showing_dog = ShowsImage dog.
Proof. vm_compute. reflexivity. Qed.

(** C2.  The Viewer shows a picture; the pictures are then removed from
    the folder and the button is pressed.  The Selector returns [None]
    and the handler sets the placeholder text, but [image=None] does not
    clear the label's image: the label goes on drawing the old picture
    and the text is not shown. *)
Theorem stale_image_survives_absence :
  let w' := snd (on_button_click counter_gen env_emptied showing_dog) in
  display showing_dog = ShowsImage dog
  /\ fst (random_image_selector2 counter_gen env_emptied showing_dog)
     = Return None
  /\ fst (on_button_click counter_gen env_emptied showing_dog) = Return tt
  /\ opt_text (image_label w') = "No images found in folder."
  /\ display w' = ShowsImage dog
  /\ display w' <> ShowsText "No images found in folder.".
Proof.
  vm_compute. repeat (split; [reflexivity|]). discriminate.
Qed.

(** C6.  The Viewer shows a picture; the folder then holds one file that
    cannot be read as an image and the button is pressed.  The handler
    returns, the failure is printed and the error text is set, but the
    label goes on drawing the old picture and the text is not shown. *)
Theorem stale_image_survives_load_error :
  let w' := snd (on_button_click counter_gen env_corrupt showing_dog) in
  display showing_dog = ShowsImage dog
  /\ fst (random_image_selector2 counter_gen env_corrupt showing_dog)
     = Return (Some "enter your image folder/bad.png")
  /\ Image_open env_corrupt "enter your image folder/bad.png"
     = Raise (Exc UnidentifiedImageError "cannot identify image file")
  /\ fst (on_button_click counter_gen env_corrupt showing_dog) = Return tt
  /\ console w'
     = ["Error loading image enter your image folder/bad.png: "
        +:+ "cannot identify image file"]
  /\ opt_text (image_label w') = "Error loading image."
  /\ display w' = ShowsImage dog
  /\ display w' <> ShowsText "Error loading image.".
Proof.
  vm_compute. repeat (split; [reflexivity|]). discriminate.
Qed.

(** C3, refuted as stated: with the directory missing the Selector
    raises [FileNotFoundError]; it does not return [None]. *)
Lemma missing_directory_is_not_absence :
  os_listdir env_missing image_folder
  = Raise (Exc FileNotFoundError "[Errno 2] No such file or directory")
  /\ fst (random_image_selector2 counter_gen env_missing (start 0))
     = Raise (Exc FileNotFoundError "[Errno 2] No such file or directory")
  /\ fst (random_image_selector2 counter_gen env_missing (start 0))
     <> Return None
  /\ fst (on_button_click counter_gen env_missing (start 0))
     = Raise (Exc FileNotFoundError "[Errno 2] No such file or directory").
Proof.
  vm_compute. repeat (split; [reflexivity|]).
  split; [discriminate|reflexivity].
Qed.

Lemma start_wf (g : nat) : wf counter_gen (start g).
Proof.
  unfold wf, start. cbn. split; [|split].
  - intros n im H. rewrite lookup_empty in H. discriminate.
  - discriminate.
  - discriminate.
Defined.

Lemma selector_uniform_among_valid_witness :
  (exists e,
      ["cat.PNG"; "dog.jpeg"; "sun.Gif"] !! 1 = Some e
      /\ fst (random_image_selector2 counter_gen env_photos (start 4))
         = Return (Some (Py.os_path_join image_folder e)))
  /\ Permutation
       (map (fun g => fst (random_image_selector2 counter_gen env_photos
                             (set_rng counter_gen g (start 4))))
            [2; 0; 1])
       [Return (Some "enter your image folder/cat.PNG");
        Return (Some "enter your image folder/dog.jpeg");
        Return (Some "enter your image folder/sun.Gif")].
Proof.
  pose proof (selector_uniform_among_valid counter_gen env_photos (start 4)
                ["notes.txt"; "cat.PNG"; "dog.jpeg"; "png"; "sun.Gif"]
                eq_refl) as H.
  assert (Hne : List.filter is_valid
                  ["notes.txt"; "cat.PNG"; "dog.jpeg"; "png"; "sun.Gif"]
                <> []) by (vm_compute; discriminate).
  specialize (H Hne). cbn zeta in H.
  destruct H as ((e & He & Hrun & _) & _ & Hperm).
  split.
  - exists e. split; [exact He|exact Hrun].
  - apply (Hperm [2; 0; 1]). vm_compute.
    apply Permutation_sym.
    apply (perm_trans (l' := [0; 2; 1])).
    + apply perm_skip, perm_swap.
    + apply perm_swap.
Defined.

Lemma selector_none_when_no_match_witness :
  random_image_selector2 counter_gen env_emptied (start 4)
  = (Return None,
     set_console counter_gen
       ["No image files found in the specified folder."] (start 4)).
Proof.
  apply (selector_none_when_no_match counter_gen env_emptied (start 4)
           ["notes.txt"; "png"]).
  - reflexivity.
  - intros e [<-|[<-|[]]]; reflexivity.
Defined.

Lemma selector_deterministic_witness :
  fst (bind counter_gen (random_seed counter_gen 7)
         (fun _ => random_image_selector2 counter_gen env_photos) (start 1))
  = fst (bind counter_gen (random_seed counter_gen 7)
           (fun _ => random_image_selector2 counter_gen env_photos)
           showing_dog).
Proof.
  apply (selector_deterministic counter_gen env_photos env_photos
           (start 1) showing_dog 7
           ["notes.txt"; "cat.PNG"; "dog.jpeg"; "png"; "sun.Gif"]);
    reflexivity.
Defined.

Lemma listdir_error_propagates_witness :
  on_button_click counter_gen env_missing showing_dog
  = (Raise (Exc FileNotFoundError "[Errno 2] No such file or directory"),
     showing_dog).
Proof.
  apply (listdir_error_propagates counter_gen env_missing showing_dog
           (Exc FileNotFoundError "[Errno 2] No such file or directory")).
  reflexivity.
Defined.

(** C5, refuted as stated: the selected picture is a valid GIF that
    opens, decodes and converts, and the label draws it resampled with
    NEAREST, not with LANCZOS. *)
Lemma gif_is_resampled_with_nearest :
  let sun := ImageFile "enter your image folder/sun.Gif" Mode_P
               (640, 480)%Z in
  let w' := snd (on_button_click counter_gen env_photos (start 5)) in
  fst (random_image_selector2 counter_gen env_photos (start 5))
  = Return (Some "enter your image folder/sun.Gif")
  /\ Image_open env_photos "enter your image folder/sun.Gif" = Return sun
  /\ load_error env_photos sun = None
  /\ fst (on_button_click counter_gen env_photos (start 5)) = Return tt
  /\ display w' = ShowsImage (Resized sun (1000, 500)%Z NEAREST)
  /\ im_resample (Resized sun (1000, 500)%Z NEAREST) <> Some LANCZOS.
Proof.
  vm_compute. repeat (split; [reflexivity|]). discriminate.
Qed.

(** C8, refuted as stated: a picture that is 1000x500 already is shown
    as a copy, with no filter applied. *)
Lemma full_size_image_is_copied :
  let banner := ImageFile "enter your image folder/banner.png" Mode_RGB
                  (1000, 500)%Z in
  let w' :=
    snd (on_button_click counter_gen Scenario.env_banner (start 0)) in
  fst (on_button_click counter_gen Scenario.env_banner (start 0)) = Return tt
  /\ display w' = ShowsImage (Copied banner)
  /\ im_size (Copied banner) = (1000, 500)%Z
  /\ im_resample (Copied banner) = None
  /\ im_resample (Copied banner) <> Some LANCZOS.
Proof.
  vm_compute. repeat (split; [reflexivity|]). discriminate.
Qed.

Lemma click_shows_resized_image_witness :
  display (snd (on_button_click counter_gen env_photos (start 4)))
  = ShowsImage dog
  /\ im_resample dog = Some LANCZOS.
Proof.
  pose proof (click_shows_resized_image counter_gen env_photos (start 4)
                "enter your image folder/dog.jpeg"
                (ImageFile "enter your image folder/dog.jpeg" Mode_RGB
                   (640, 480)%Z)
                (start_wf 4) eq_refl eq_refl eq_refl eq_refl) as H.
  cbn zeta in H. destruct H as (_ & Hd & _ & Hr & _).
  split; [exact Hd|]. apply Hr; reflexivity.
Defined.

Lemma new_image_is_1000x500_resized_witness :
  im_size dog = (1000, 500)%Z
  /\ display (snd (on_button_click counter_gen env_photos (start 4)))
     = ShowsImage dog.
Proof.
  assert (Hnew : tk_images
                   (snd (on_button_click counter_gen env_photos (start 4)))
                 !! 1 = Some dog) by (vm_compute; reflexivity).
  destruct (new_image_is_1000x500_resized counter_gen env_photos (start 4)
              1 dog eq_refl Hnew) as (_ & Hs & Hd).
  split; [exact Hs|exact Hd].
Defined.

Lemma absence_branch_frame_witness :
  attr_image (image_label
                (snd (on_button_click counter_gen env_emptied showing_dog)))
  = attr_image (image_label showing_dog).
Proof.
  apply (absence_branch_frame counter_gen env_emptied showing_dog).
  vm_compute. reflexivity.
Defined.

End Runs.

(** ** Names, suffixes and paths *)

Lemma append_cons (c : ascii) (a b : string) :
  String c a +:+ b = String c (a +:+ b).
Proof. reflexivity. Qed.

Lemma append_empty (b : string) : EmptyString +:+ b = b.
Proof. reflexivity. Qed.

Lemma lower_char_idem (c : ascii) :
  Py.lower_char (Py.lower_char c) = Py.lower_char c.
Proof.
  destruct c as [[] [] [] [] [] [] [] []]; reflexivity.
Qed.

Lemma lower_idem (s : string) : Py.lower (Py.lower s) = Py.lower s.
Proof.
  induction s as [|c s IH]; [reflexivity|].
  simpl. now rewrite lower_char_idem, IH.
Qed.

Lemma lower_append (a b : string) :
  Py.lower (a +:+ b) = Py.lower a +:+ Py.lower b.
Proof.
  induction a as [|c a IH]; [reflexivity|].
  rewrite append_cons. simpl. now rewrite append_cons, IH.
Qed.

Lemma lower_length (s : string) : String.length (Py.lower s) = String.length s.
Proof. induction s as [|c s IH]; [reflexivity|]. simpl. now rewrite IH. Qed.

Lemma append_length (a b : string) :
  String.length (a +:+ b) = String.length a + String.length b.
Proof.
  induction a as [|c a IH]; [reflexivity|].
  rewrite append_cons. simpl. now rewrite IH.
Qed.

Lemma substring_whole (s : string) : substring 0 (String.length s) s = s.
Proof. induction s as [|c s IH]; [reflexivity|]. simpl. now rewrite IH. Qed.

Lemma substring_after (p suf : string) :
  substring (String.length p) (String.length suf) (p +:+ suf) = suf.
Proof.
  induction p as [|c p IH]; [apply substring_whole|].
  rewrite append_cons. simpl. exact IH.
Qed.

Lemma substring_length (k m : nat) (s : string) :
  k + m <= String.length s -> String.length (substring k m s) = m.
Proof.
  revert k m. induction s as [|c s IH]; intros k m H; simpl in H.
  - assert (k = 0) by lia. assert (m = 0) by lia. subst. reflexivity.
  - destruct k as [|k]; simpl.
    + destruct m as [|m]; [reflexivity|]. simpl. f_equal. apply IH. lia.
    + apply IH. lia.
Qed.

Lemma split_at (s : string) (k : nat) :
  k <= String.length s ->
  s = substring 0 k s +:+ substring k (String.length s - k) s.
Proof.
  revert k. induction s as [|c s IH]; intros k H; simpl in H.
  - assert (k = 0) by lia. subst. reflexivity.
  - destruct k as [|k].
    + simpl. rewrite append_empty. now rewrite substring_whole.
    + simpl. rewrite append_cons. f_equal. apply IH. lia.
Qed.

Lemma append_inj (a b c d : string) :
  a +:+ b = c +:+ d -> String.length b = String.length d ->
  a = c /\ b = d.
Proof.
  revert c. induction a as [|x a IH]; intros c H Hlen.
  - destruct c as [|y c]; [now split|].
    rewrite append_empty in H. subst b.
    rewrite append_cons in Hlen. simpl in Hlen.
    rewrite append_length in Hlen. lia.
  - destruct c as [|y c].
    + rewrite append_empty in H. subst d.
      rewrite append_cons in Hlen. simpl in Hlen.
      rewrite append_length in Hlen. lia.
    + rewrite !append_cons in H. injection H as -> H.
      destruct (IH c H Hlen) as [-> ->]. now split.
Qed.

Lemma endswith1_spec (s suffix : string) :
  Py.endswith1 s suffix = true <-> exists p, s = p +:+ suffix.
Proof.
  unfold Py.endswith1. rewrite andb_true_iff, Nat.leb_le, String.eqb_eq.
  split.
  - intros [Hle Hsub].
    exists (substring 0 (String.length s - String.length suffix) s).
    pose proof (split_at s (String.length s - String.length suffix)) as Hs.
    replace (String.length s - (String.length s - String.length suffix))
      with (String.length suffix) in Hs by lia.
    rewrite Hsub in Hs. apply Hs. lia.
  - intros [p ->]. rewrite append_length. split; [lia|].
    replace (String.length p + String.length suffix - String.length suffix)
      with (String.length p) by lia.
    apply substring_after.
Qed.

Lemma is_valid_split (e : string) :
  is_valid e = true ->
  exists stem ext, e = stem +:+ ext /\ In (Py.lower ext) valid_extensions.
Proof.
  unfold is_valid, Py.endswith. rewrite existsb_exists.
  intros (x & Hin & Hends).
  apply endswith1_spec in Hends. destruct Hends as [p Hp].
  pose proof (f_equal String.length Hp) as Hlen.
  rewrite lower_length, append_length in Hlen.
  set (k := String.length e - String.length x).
  exists (substring 0 k e), (substring k (String.length x) e).
  assert (He : e = substring 0 k e +:+ substring k (String.length x) e).
  { pose proof (split_at e k) as Hs.
    replace (String.length e - k) with (String.length x) in Hs
      by (unfold k; lia).
    apply Hs. unfold k. lia. }
  split; [exact He|].
  rewrite He, lower_append in Hp.
  apply append_inj in Hp.
  - destruct Hp as [_ ->]. exact Hin.
  - rewrite lower_length. apply substring_length. unfold k. lia.
Qed.

(** X1.  A name passes the Selector's filter exactly when it is some
    stem, possibly empty, followed by an ending whose lowercased form is
    one of the five extensions: the case of the letters does not matter
    and nothing but the end of the name is looked at. *)
Theorem is_valid_iff_stem_ext (e : string) :
  is_valid e = true <->
  exists stem ext, e = stem +:+ ext /\ In (Py.lower ext) valid_extensions.
Proof.
  split; [apply is_valid_split|].
  unfold is_valid, Py.endswith. rewrite existsb_exists.
  intros (stem & ext & -> & Hin).
  exists (Py.lower ext). split; [exact Hin|].
  apply endswith1_spec. exists (Py.lower stem). apply lower_append.
Qed.

(** X2.  Lowercasing a name does not change whether the filter accepts
    it, and a name the filter accepts has at least four characters. *)
Theorem is_valid_lower_and_length (e : string) :
  is_valid (Py.lower e) = is_valid e
  /\ (is_valid e = true -> 4 <= String.length e).
Proof.
  split.
  - unfold is_valid. now rewrite lower_idem.
  - intros Hv. apply is_valid_split in Hv.
    destruct Hv as (stem & ext & -> & Hin).
    rewrite append_length, <- (lower_length ext).
    destruct Hin as [<-|[<-|[<-|[<-|[<-|[]]]]]]; simpl; lia.
Qed.

(** The configured folder is not empty and does not end with a slash,
    so joining puts one slash between it and a relative name. *)
Lemma join_folder_unfold (e : string) :
  Py.os_path_join image_folder e
  = if Py.startswith e "/" then e
    else "enter your image folder/" +:+ e.
Proof. unfold Py.os_path_join. destruct (Py.startswith e "/"); reflexivity. Qed.

Lemma startswith_slash (e : string) :
  Py.startswith e "/" = true -> exists r, e = String "/"%char r.
Proof.
  unfold Py.startswith. destruct e as [|c e]; [discriminate|].
  cbn [String.prefix].
  destruct (ascii_dec "/"%char c) as [<-|]; [eauto|discriminate].
Qed.

Lemma append_cancel_l (p a b : string) : p +:+ a = p +:+ b -> a = b.
Proof.
  induction p as [|c p IH]; [now rewrite !append_empty|].
  rewrite !append_cons. intros [= H]. auto.
Qed.

Lemma join_folder_inj (a b : string) :
  Py.os_path_join image_folder a = Py.os_path_join image_folder b -> a = b.
Proof.
  rewrite !join_folder_unfold.
  destruct (Py.startswith a "/") eqn:Ha, (Py.startswith b "/") eqn:Hb.
  - auto.
  - apply startswith_slash in Ha. destruct Ha as [r ->].
    rewrite append_cons. intros H. discriminate H.
  - apply startswith_slash in Hb. destruct Hb as [r ->].
    rewrite append_cons. intros H. discriminate H.
  - apply append_cancel_l.
Qed.

(** X3.  The path the Selector builds tells the entry apart: two entries
    give the same path only when they are the same entry.  For an entry
    that does not begin with a slash the path is the folder, one slash
    and the entry. *)
Theorem os_path_join_folder_inj (a b : string) :
  (Py.os_path_join image_folder a = Py.os_path_join image_folder b <-> a = b)
  /\ (Py.startswith a "/" = false ->
      Py.os_path_join image_folder a = "enter your image folder/" +:+ a).
Proof.
  split; [split; [apply join_folder_inj|now intros ->]|].
  intros Ha. now rewrite join_folder_unfold, Ha.
Qed.

Lemma NoDup_map_inj {A B} (f : A -> B) (l : list A) :
  (forall x y, f x = f y -> x = y) ->
  List.NoDup l -> List.NoDup (map f l).
Proof.
  intros Hinj Hnd. induction Hnd as [|x l Hx Hnd IH]; simpl; constructor.
  - rewrite in_map_iff. intros (y & Hy & Hin).
    apply Hinj in Hy. subst y. apply Hx, Hin.
  - exact IH.
Qed.

Section SelectorMore.

Variable G : Generator.
Variable env : Env.

(** The run of the Selector from generator state [g], as the pick for
    the index that [g] draws. *)
Lemma selector_run_pick (w : World G) (listing : list string)
    (g : gen_state G) :
  os_listdir env image_folder = Return listing ->
  List.filter is_valid listing <> [] ->
  fst (random_image_selector2 G env (set_rng G g w))
  = pick (List.filter is_valid listing)
         (fst (randbelow G (length (List.filter is_valid listing)) g)).
Proof.
  intros Hls Hne. rewrite selector_unfold, Hls. cbn zeta.
  destruct (List.filter is_valid listing); [congruence|reflexivity].
Qed.

(** X4.  When the listing names every entry once, as a directory does,
    no two draws give the same path: over generator states that realise
    each index once, the Selector returns pairwise different paths, one
    for each valid entry. *)
Theorem selector_paths_distinct
    (w : World G) (listing : list string) (gs : list (gen_state G)) :
  os_listdir env image_folder = Return listing ->
  List.NoDup listing ->
  List.filter is_valid listing <> [] ->
  Permutation
    (map (fun g => fst (randbelow G
                          (length (List.filter is_valid listing)) g)) gs)
    (seq 0 (length (List.filter is_valid listing))) ->
  let runs :=
    map (fun g => fst (random_image_selector2 G env (set_rng G g w))) gs in
  List.NoDup runs
  /\ length runs = length (List.filter is_valid listing)
  /\ forall r, In r runs ->
       exists e, In e listing /\ is_valid e = true
                 /\ r = Return (Some (Py.os_path_join image_folder e)).
Proof.
  intros Hls Hnd Hne Hperm. cbn zeta.
  set (all_files := List.filter is_valid listing) in *.
  assert (Hruns :
            Permutation
              (map (fun g => fst (random_image_selector2 G env
                                    (set_rng G g w))) gs)
              (map (fun e => Return (Some (Py.os_path_join image_folder e)))
                   all_files)).
  { rewrite (map_ext _ _
               (fun g => selector_run_pick w listing g Hls Hne)).
    fold all_files.
    rewrite <- pick_all, <- (map_map _ (pick all_files)).
    now apply Permutation_map. }
  split; [|split].
  - eapply Permutation_NoDup; [apply Permutation_sym, Hruns|].
    apply NoDup_map_inj.
    + intros x y [= H]. now apply join_folder_inj.
    + unfold all_files. now apply List.NoDup_filter.
  - rewrite (Permutation_length Hruns). apply length_map.
  - intros r Hr.
    apply (Permutation_in _ Hruns) in Hr.
    apply in_map_iff in Hr. destruct Hr as (e & <- & He).
    unfold all_files in He. apply filter_In in He. destruct He as [He Hv].
    eauto.
Qed.

End SelectorMore.

(** ** One press of the button *)

Section PressFacts.

Variable G : Generator.
Variable env : Env.

Ltac press_cases w r w1 Hsel :=
  rewrite click_unfold;
  pose proof (selector_frame G env w) as Hfr; cbn zeta in Hfr;
  destruct (random_image_selector2 G env w) as [r w1] eqn:Hsel;
  cbn [fst snd] in Hfr;
  destruct Hfr as (Hm & Hlf & Hrf & Hlbl & Htk & Hid).

Lemma display_congr (w1 w : World G) :
  image_label w1 = image_label w -> tk_images w1 = tk_images w ->
  display w1 = display w.
Proof. intros Hl Ht. unfold display. now rewrite Hl, Ht. Qed.

(** What the Selector leaves on the console and in the generator. *)
Lemma selector_console_rng (w : World G) :
  let r := fst (random_image_selector2 G env w) in
  let w1 := snd (random_image_selector2 G env w) in
  console w1
  = console w ++ match r with Return None => [no_files_msg] | _ => [] end
  /\ rng w1
     = match os_listdir env image_folder with
       | Return listing =>
           match List.filter is_valid listing with
           | [] => rng w
           | (_ :: _) as all_files =>
               snd (randbelow G (length all_files) (rng w))
           end
       | Raise _ => rng w
       end.
Proof.
  cbn zeta. rewrite selector_unfold.
  destruct (os_listdir env image_folder) as [listing|e]; cbn zeta.
  - destruct (List.filter is_valid listing) as [|x xs] eqn:Hf.
    + split; reflexivity.
    + cbn [fst snd]. unfold pick.
      destruct ((x :: xs) !! _); cbn; rewrite app_nil_r; split; reflexivity.
  - cbn. rewrite app_nil_r. split; reflexivity.
Qed.


(** X6.  A press appends at most one line to the console: the Selector's
    message when it found no valid entry, or the line naming the path and
    the exception when loading failed.  Nothing already printed is
    changed. *)
Theorem click_console (w : World G) :
  let w' := snd (on_button_click G env w) in
  console w' = console w
  \/ (fst (random_image_selector2 G env w) = Return None
      /\ console w' = console w ++ [no_files_msg])
  \/ (exists path exc,
        fst (random_image_selector2 G env w) = Return (Some path)
        /\ load_fails env path exc
        /\ console w'
           = console w ++ ["Error loading image " +:+ path +:+ ": "
                           +:+ exc_str exc]).
Proof.
  cbn zeta.
  pose proof (selector_console_rng w) as [Hcon _]. cbn zeta in Hcon.
  pose proof (selector_some_truthy G env w) as Htruthy.
  press_cases w r w1 Hsel. cbn [fst snd] in *.
  destruct r as [[path|]|e]; cbn [Py.truthy_opt_str from_option id].
  - rewrite (Htruthy path eq_refl). cbn zeta.
    rewrite app_nil_r in Hcon.
    assert (Herr : forall exc (W : World G),
               console W = console w1 ->
               load_fails env path exc ->
               console (snd (handle_error G env path exc W)) = console w
               \/ (Return (Some path) = Return None
                   /\ console (snd (handle_error G env path exc W))
                      = console w ++ [no_files_msg])
               \/ exists path0 exc0,
                    Return (Some path) = Return (Some path0)
                    /\ load_fails env path0 exc0
                    /\ console (snd (handle_error G env path exc W))
                       = console w
                         ++ ["Error loading image " +:+ path0 +:+ ": "
                             +:+ exc_str exc0]).
    { intros exc W HW Hfail.
      destruct (handle_error_cases G env path exc W)
        as [(e' & _ & ->)|[_ ->]]; cbn [snd].
      - left. now rewrite HW.
      - right; right. exists path, exc. split; [reflexivity|].
        split; [exact Hfail|]. cbn. now rewrite HW, Hcon. }
    destruct (Image_open env path) as [img|e1] eqn:Hopen.
    + destruct (load_error env img) as [e1|] eqn:Hload.
      * apply Herr; [reflexivity|]. right. exists img. auto.
      * destruct (photo_error env _) as [[e1 named]|] eqn:Hphoto.
        -- destruct (bump_id_frame G named w1)
             as (_ & _ & _ & _ & _ & _ & HW & _).
           apply Herr; [exact HW|]. right. exists img.
           split; [exact Hopen|]. right. split; [exact Hload|].
           now exists named.
        -- left. cbn [snd]. unfold after_image. cbn zeta.
           destruct (attr_image (image_label w1)); cbn; exact Hcon.
    + apply Herr; [reflexivity|]. now left.
  - right; left. split; [reflexivity|exact Hcon].
  - left. cbn. now rewrite Hcon, app_nil_r.
Qed.

(** X7.  A press advances the generator by exactly one draw, bounded by
    the number of valid entries, when the listing has a valid entry, and
    leaves it untouched when it has none or cannot be read; whether the
    chosen file then loads makes no difference. *)
Theorem click_draws_once (w : World G) :
  rng (snd (on_button_click G env w))
  = match os_listdir env image_folder with
    | Return listing =>
        match List.filter is_valid listing with
        | [] => rng w
        | (_ :: _) as all_files => snd (randbelow G (length all_files) (rng w))
        end
    | Raise _ => rng w
    end.
Proof.
  pose proof (selector_console_rng w) as [_ Hrng]. cbn zeta in Hrng.
  rewrite <- Hrng. rewrite click_unfold.
  destruct (random_image_selector2 G env w) as [r w1]. cbn [snd].
  destruct r as [image_path|e]; [|reflexivity].
  destruct (Py.truthy_opt_str image_path); [|reflexivity].
  cbn zeta.
  assert (Herr : forall p e (W : World G),
             rng W = rng w1 ->
             rng (snd (handle_error G env p e W)) = rng w1).
  { intros p e W HW.
    destruct (handle_error_frame G env p e W)
      as (_ & _ & _ & _ & _ & _ & _ & Hr & _).
    now rewrite Hr. }
  destruct (Image_open env _) as [img|e1]; [|now apply Herr].
  destruct (load_error env img) as [e1|]; [now apply Herr|].
  destruct (photo_error env _) as [[e1 named]|].
  { apply Herr. now destruct (bump_id_frame G named w1)
      as (_ & _ & _ & _ & _ & _ & _ & Hr). }
  cbn [snd]. unfold after_image. cbn zeta.
  destruct (attr_image (image_label w1)); reflexivity.
Qed.

Lemma press_picture (w : World G) :
  wf G w ->
  opt_image (image_label w) <> None ->
  let w' := snd (on_button_click G env w) in
  opt_image (image_label w') <> None
  /\ (display w' = display w
      \/ exists src,
           display w'
           = ShowsImage (pil_resize src (1000, 500)%Z LANCZOS)).
Proof.
  intros (Hkeys & Hattr & Hopt) Hset. cbn zeta.
  press_cases w r w1 Hsel.
  pose proof (display_congr w1 w Hlbl Htk) as Hdisp.
  assert (Hset1 : opt_image (image_label w1) <> None) by now rewrite Hlbl.
  assert (Hkeep : forall W : World G,
             opt_image (image_label W) = opt_image (image_label w1) ->
             tk_images W = tk_images w1 ->
             opt_image (image_label W) <> None
             /\ (display W = display w
                 \/ exists src,
                      display W
                      = ShowsImage (pil_resize src (1000, 500)%Z LANCZOS))).
  { intros W Ho Ht. split; [now rewrite Ho|].
    left. rewrite <- Hdisp. unfold display. rewrite Ho, Ht.
    destruct (opt_image (image_label w1)); [reflexivity|congruence]. }
  destruct r as [image_path|e]; [|cbn [snd]; now apply Hkeep].
  destruct (Py.truthy_opt_str image_path); [|now apply Hkeep].
  cbn zeta.
  assert (Herr : forall p e (W : World G),
             image_label W = image_label w1 -> tk_images W = tk_images w1 ->
             opt_image (image_label (snd (handle_error G env p e W))) <> None
             /\ (display (snd (handle_error G env p e W)) = display w
                 \/ exists src,
                      display (snd (handle_error G env p e W))
                      = ShowsImage (pil_resize src (1000, 500)%Z LANCZOS))).
  { intros p e W Hl Ht.
    destruct (handle_error_frame G env p e W)
      as (_ & _ & _ & Ho' & _ & Ht' & _).
    apply Hkeep; [now rewrite Ho', Hl|now rewrite Ht', Ht]. }
  destruct (Image_open env _) as [img|e1]; [|now apply Herr].
  destruct (load_error env img) as [e1|]; [now apply Herr|].
  destruct (photo_error env _) as [[e1 named]|].
  { destruct (bump_id_frame G named w1) as (_ & _ & _ & Hl & Ht & _).
    now apply Herr. }
  cbn [snd]. split.
  - unfold after_image. cbn zeta.
    destruct (attr_image (image_label w1)); discriminate.
  - right. exists img. apply after_image_display.
    rewrite Hlbl, Hid. exact Hattr.
Qed.


(** X9.  While the label has no image configured, the placeholders are
    drawn: a press that finds no valid entry makes the label draw
    [No images found in folder.]; a press whose file fails to open,
    decode or convert makes it draw [Error loading image.] when the line
    of the [except] block can be printed, and when it cannot the handler
    raises before the text is set and the label draws what it drew. *)
Theorem placeholder_drawn_without_image (w : World G) :
  opt_image (image_label w) = None ->
  let w' := snd (on_button_click G env w) in
  (fst (random_image_selector2 G env w) = Return None ->
   display w' = ShowsText "No images found in folder.")
  /\ (forall path exc,
        fst (random_image_selector2 G env w) = Return (Some path) ->
        load_fails env path exc ->
        match print_error env (error_line path exc) with
        | None => display w' = ShowsText "Error loading image."
        | Some e =>
            fst (on_button_click G env w) = Raise e
            /\ display w' = display w
        end).
Proof.
  intros Hnone. cbn zeta. split.
  - intros Hsel. rewrite (absence_display G env w Hsel). now rewrite Hnone.
  - intros path exc Hsel Hfail.
    destruct (print_error env (error_line path exc)) as [e|] eqn:Hprint.
    + pose proof (selector_some_truthy G env w path Hsel) as Htruthy.
      press_cases w r w1 Hsel'.
      cbn [fst] in Hsel. subst r.
      cbn [Py.truthy_opt_str from_option id]. rewrite Htruthy. cbn zeta.
      assert (Hgoal : forall W : World G,
                 image_label W = image_label w1 ->
                 tk_images W = tk_images w1 ->
                 fst (handle_error G env path exc W) = Raise e
                 /\ display (snd (handle_error G env path exc W))
                    = display w).
      { intros W Hl Ht. unfold handle_error. rewrite Hprint. cbn [fst snd].
        split; [reflexivity|].
        apply display_congr; [now rewrite Hl|now rewrite Ht]. }
      destruct Hfail as [Ho|(img & Ho & [Hl|(Hl & named & Hp)])]; rewrite Ho.
      * now apply Hgoal.
      * rewrite Hl. now apply Hgoal.
      * rewrite Hl, Hp.
        destruct (bump_id_frame G named w1) as (_ & _ & _ & HlW & HtW & _).
        now apply Hgoal.
    + destruct (load_failure_outcome G env w path exc Hsel Hfail Hprint)
        as (_ & _ & _ & Hd).
      rewrite Hd. now rewrite Hnone.
Qed.

End PressFacts.

(** ** Whole sessions *)

Section SessionFacts.

Variable G : Generator.

Lemma button_press_world (env : Env) (p : Process G) :
  world (button_press G env p) = snd (on_button_click G env (world p)).
Proof.
  unfold button_press.
  destruct (on_button_click G env (world p)) as [[u|e] w']; reflexivity.
Qed.




Lemma session_inv_built (w : World G) :
  tk_images w = ∅ -> session_inv G (built G w).
Proof.
  intros Hempty.
  assert (Hno : forall n im, tk_images (built G w) !! n = Some im -> False).
  { intros n im H. cbn in H. rewrite Hempty, lookup_empty in H.
    discriminate. }
  unfold session_inv, wf.
  split; [split; [|split]|split; [|split; [|split; [|split]]]].
  - intros n im H. destruct (Hno n im H).
  - discriminate.
  - discriminate.
  - intros n im H. destruct (Hno n im H).
  - now left.
  - reflexivity.
  - reflexivity.
  - reflexivity.
Qed.

Lemma click_preserves_session_inv (env : Env) (w : World G) :
  session_inv G w -> session_inv G (snd (on_button_click G env w)).
Proof.
  intros (Hwf & Htab & Htxt & Hm0 & Hl0 & Hr0).
  pose proof (click_preserves_wf G env w Hwf) as Hwf'.
  assert (Hkeep : forall W : World G,
             wf G W ->
             attr_image (image_label W) = attr_image (image_label w) ->
             tk_images W = tk_images w ->
             (opt_text (image_label W) = opt_text (image_label w)
              \/ opt_text (image_label W) = no_images_text
              \/ opt_text (image_label W) = error_text) ->
             master W = master w -> left_frame W = left_frame w ->
             right_frame W = right_frame w ->
             session_inv G W).
  { intros W HwfW Ha Ht Hx HmW HlW HrW. unfold session_inv.
    rewrite Ha, Ht, HmW, HlW, HrW.
    split; [exact HwfW|]. split; [exact Htab|].
    split; [|split; [exact Hm0|split; [exact Hl0|exact Hr0]]].
    destruct Hx as [Hx | [Hx | Hx]]; rewrite Hx; auto. }
  rewrite click_unfold in Hwf' |- *.
  pose proof (selector_frame G env w) as Hfr. cbn zeta in Hfr.
  destruct (random_image_selector2 G env w) as [r w1].
  cbn [fst snd] in Hfr.
  destruct Hfr as (Hm & Hlf & Hrf & Hlbl & Htk & Hid).
  destruct r as [image_path|e].
  2:{ cbn [snd] in *. apply Hkeep; try assumption; rewrite ?Hlbl; auto. }
  destruct (Py.truthy_opt_str image_path).
  2:{ cbn [snd] in *. apply Hkeep; try assumption; cbn; rewrite ?Hlbl; auto. }
  cbn zeta in *.
  assert (Herr : forall pth e (W : World G),
             image_label W = image_label w1 -> tk_images W = tk_images w1 ->
             master W = master w1 -> left_frame W = left_frame w1 ->
             right_frame W = right_frame w1 ->
             wf G (snd (handle_error G env pth e W)) ->
             session_inv G (snd (handle_error G env pth e W))).
  { intros pth e W HlW HtW HmW HlfW HrfW HwfW.
    destruct (handle_error_frame G env pth e W)
      as (Hm' & Hl' & Hr' & _ & Ha' & Ht' & _ & _ & Hx').
    apply Hkeep; try assumption.
    - now rewrite Ha', HlW, Hlbl.
    - now rewrite Ht', HtW.
    - rewrite HlW, Hlbl in Hx'. destruct Hx' as [Hx'|Hx']; auto.
    - now rewrite Hm', HmW.
    - now rewrite Hl', HlfW.
    - now rewrite Hr', HrfW. }
  destruct (Image_open env _) as [img|e1]; [|now apply Herr].
  destruct (load_error env img) as [e1|]; [now apply Herr|].
  destruct (photo_error env _) as [[e1 named]|].
  { destruct (bump_id_frame G named w1)
      as (HmW & HlfW & HrfW & HlW & HtW & _).
    now apply Herr. }
  cbn [snd] in *.
  set (img' := pil_resize img (1000, 500)%Z LANCZOS) in *.
  unfold session_inv. split; [exact Hwf'|].
  assert (Htab1 : forall n im, tk_images w1 !! n = Some im ->
                    attr_image (image_label w1) = Some {| photo_name := n |}).
  { intros n im Hn. rewrite Htk in Hn. rewrite Hlbl.
    now destruct (Htab n im Hn). }
  unfold after_image. cbn zeta.
  destruct (attr_image (image_label w1)) as [old|] eqn:Hold; cbn.
  - split; [|rewrite Hlbl, Hm, Hlf, Hrf; auto].
    intros n im Hn.
    apply lookup_delete_Some in Hn. destruct Hn as [Hne Hn].
    apply lookup_insert_Some in Hn.
    destruct Hn as [[<- <-]|[_ Hn]]; [split; [reflexivity|now exists img]|].
    apply Htab1 in Hn. injection Hn as ->. now destruct Hne.
  - split; [|rewrite Hlbl, Hm, Hlf, Hrf; auto].
    intros n im Hn.
    apply lookup_insert_Some in Hn.
    destruct Hn as [[<- <-]|[_ Hn]]; [split; [reflexivity|now exists img]|].
    apply Htab1 in Hn. discriminate.
Qed.

Lemma mainloop_preserves_session_inv (presses : list Env) (p : Process G) :
  session_inv G (world p) -> session_inv G (world (mainloop G presses p)).
Proof.
  revert p. induction presses as [|env presses IH]; intros p Hinv;
    [exact Hinv|].
  cbn [mainloop fold_left]. apply IH.
  rewrite button_press_world. now apply click_preserves_session_inv.
Qed.

(** [main], path by path. *)
Lemma main_unfold (env0 : Env) (presses : list Env) (w : World G) :
  main G env0 presses w
  = match display_error env0 with
    | Some e => (Raise e, {| world := w; reported := [] |})
    | None =>
        match on_button_click G env0 (built G w) with
        | (Return _, w') =>
            (Return tt, mainloop G presses {| world := w'; reported := [] |})
        | (Raise e, w') => (Raise e, {| world := w'; reported := [] |})
        end
    end.
Proof.
  unfold main, bind, tk_Tk.
  destruct (display_error env0); reflexivity.
Qed.

Lemma main_returns_inv (env0 : Env) (presses : list Env) (w : World G) :
  tk_images w = ∅ ->
  fst (main G env0 presses w) = Return tt ->
  session_inv G (world (snd (main G env0 presses w))).
Proof.
  intros Hempty. rewrite main_unfold.
  destruct (display_error env0); [discriminate|].
  pose proof (click_preserves_session_inv env0 (built G w)
                (session_inv_built w Hempty)) as Hinv.
  destruct (on_button_click G env0 (built G w)) as [[u|e] w'];
    [|discriminate].
  intros _. cbn [snd] in *. now apply mainloop_preserves_session_inv.
Qed.

End SessionFacts.

Section SessionTheorems.

Variable G : Generator.



Lemma inv_display (w : World G) :
  session_inv G w ->
  match display w with
  | ShowsImage im =>
      opt_image (image_label w) <> None
      /\ exists src, im = pil_resize src (1000, 500)%Z LANCZOS
  | ShowsText _ => opt_image (image_label w) = None
  | ShowsNothing => False
  end.
Proof.
  intros ((_ & _ & Hopt) & Htab & _). unfold display.
  destruct (opt_image (image_label w)) as [n|]; [|reflexivity].
  destruct (Hopt n eq_refl) as [_ [im Him]]. rewrite Him.
  split; [discriminate|]. now destruct (Htab n im Him).
Qed.

(** X12.  Throughout a session the label never draws a deleted image:
    an image the label is configured with is the live Tk image that the
    label's [image] attribute holds. *)
Theorem session_image_alive
    (env0 : Env) (presses : list Env) (w : World G) :
  tk_images w = ∅ ->
  fst (main G env0 presses w) = Return tt ->
  let w' := world (snd (main G env0 presses w)) in
  display w' <> ShowsNothing
  /\ forall n, opt_image (image_label w') = Some n ->
               attr_image (image_label w') = Some {| photo_name := n |}
               /\ is_Some (tk_images w' !! n).
Proof.
  intros Hempty Hret. cbn zeta.
  pose proof (main_returns_inv G env0 presses w Hempty Hret) as Hinv.
  split.
  - pose proof (inv_display _ Hinv) as Hd. intros Heq.
    now rewrite Heq in Hd.
  - destruct Hinv as ((_ & _ & Hopt) & _). exact Hopt.
Qed.



(** X15.  No press changes the window: at any time of a session the
    title, the geometry, the background and the two frames are those the
    constructor set, and the label's text is empty or one of the two
    placeholders. *)
Theorem session_layout_fixed
    (env0 : Env) (presses : list Env) (w : World G) :
  tk_images w = ∅ ->
  fst (main G env0 presses w) = Return tt ->
  let w' := world (snd (main G env0 presses w)) in
  master w' = {| win_title := "Random Image Viewer";
                 win_geometry := "1920x1080"; win_bg := "yellow" |}
  /\ left_frame w'
     = Some {| frame_width := Some 400%Z; frame_bg := "pink";
               frame_side := "left"; frame_fill := "y";
               frame_expand := false; frame_propagate := false |}
  /\ right_frame w'
     = Some {| frame_width := None; frame_bg := "light blue";
               frame_side := "right"; frame_fill := "both";
               frame_expand := true; frame_propagate := true |}
  /\ In (opt_text (image_label w'))
        [EmptyString; "No images found in folder."; "Error loading image."].
Proof.
  intros Hempty Hret. cbn zeta.
  destruct (main_returns_inv G env0 presses w Hempty Hret)
    as (_ & _ & Htxt & Hm & Hl & Hr).
  split; [exact Hm|]. split; [exact Hl|]. split; [exact Hr|].
  destruct Htxt as [H | [H | H]]; rewrite H; simpl; auto.
Qed.

Lemma mainloop_keeps_picture (more : list Env) (p : Process G) :
  session_inv G (world p) ->
  opt_image (image_label (world p)) <> None ->
  opt_image (image_label (world (mainloop G more p))) <> None.
Proof.
  revert p. induction more as [|env more IH]; intros p Hinv Hset;
    [exact Hset|].
  cbn [mainloop fold_left]. apply IH; rewrite button_press_world.
  - now apply click_preserves_session_inv.
  - destruct Hinv as (Hwf & _).
    now destruct (press_picture G env (world p) Hwf Hset).
Qed.

(** X16.  Once the label draws an image in a session, it draws an image
    after every later press, whatever the folder then holds: a 1000x500
    image, and never a placeholder text. *)
Theorem session_picture_stays
    (env0 : Env) (presses more : list Env) (w : World G) (im : PILImage) :
  tk_images w = ∅ ->
  fst (main G env0 presses w) = Return tt ->
  display (world (snd (main G env0 presses w))) = ShowsImage im ->
  exists im',
    display (world (mainloop G more (snd (main G env0 presses w))))
    = ShowsImage im'
    /\ im_size im' = (1000, 500)%Z.
Proof.
  intros Hempty Hret Hd.
  pose proof (main_returns_inv G env0 presses w Hempty Hret) as Hinv.
  pose proof (inv_display _ Hinv) as Hshown. rewrite Hd in Hshown.
  destruct Hshown as [Hset _].
  pose proof (mainloop_keeps_picture more _ Hinv Hset) as Hset'.
  pose proof (inv_display _ (mainloop_preserves_session_inv G more _ Hinv))
    as Hshown'.
  destruct (display (world (mainloop G more (snd (main G env0 presses w)))))
    as [im'| |].
  - exists im'. split; [reflexivity|].
    destruct Hshown' as [_ [src ->]]. apply pil_resize_size.
  - contradiction.
  - contradiction.
Qed.

End SessionTheorems.

(** ** Runs of whole sessions *)

Module SessionRuns.

Import Run Scenario.

Example session_outcome :
  let p := snd (main counter_gen env_photos presses (start 4)) in
  fst (main counter_gen env_photos presses (start 4)) = Return tt
  /\ reported p
     = [Exc FileNotFoundError "[Errno 2] No such file or directory"]
  /\ console (world p)
     = ["No image files found in the specified folder.";
        "Error loading image enter your image folder/half.JPG: "
        +:+ "image file is truncated";
        "Error loading image enter your image folder/bad.png: "
        +:+ "cannot identify image file"]
  /\ display (world p)
     = ShowsImage
         (Resized (ImageFile "enter your image folder/sun.Gif" Mode_P
                     (640, 480)%Z)
                  (1000, 500)%Z NEAREST).
Proof. vm_compute. repeat split. Qed.

(** The file fails to load and its name cannot be written to an ASCII
    standard output: the handler raises from [print], and at start-up so
    does [main]; without a display [main] raises before that. *)
Example print_failure_escapes :
  fst (on_button_click counter_gen env_latin (start 0))
  = Raise (Exc UnicodeEncodeError "'ascii' codec can't encode character")
  /\ display (snd (on_button_click counter_gen env_latin showing_dog))
     = ShowsImage dog
  /\ opt_text (image_label
                 (snd (on_button_click counter_gen env_latin showing_dog)))
     = EmptyString
  /\ fst (main counter_gen env_latin presses (start 0))
     = Raise (Exc UnicodeEncodeError "'ascii' codec can't encode character")
  /\ fst (main counter_gen env_no_display presses (start 0))
     = Raise (Exc TclError "no display name")
  /\ reported (mainloop counter_gen [env_latin; env_missing]
                 {| world := showing_dog; reported := [] |})
     = [Exc UnicodeEncodeError "'ascii' codec can't encode character";
        Exc FileNotFoundError "[Errno 2] No such file or directory"].
Proof. vm_compute. repeat split. Qed.

Lemma listing_nodup :
  List.NoDup ["notes.txt"; "cat.PNG"; "dog.jpeg"; "png"; "sun.Gif"].
Proof.
  repeat (constructor; [simpl; intuition discriminate|]). constructor.
Defined.


Lemma selector_paths_distinct_witness :
  List.NoDup
    (map (fun g => fst (random_image_selector2 counter_gen env_photos
                          (set_rng counter_gen g (start 4))))
         [2; 0; 1]).
Proof.
  apply (selector_paths_distinct counter_gen env_photos (start 4)
           ["notes.txt"; "cat.PNG"; "dog.jpeg"; "png"; "sun.Gif"]
           [2; 0; 1]).
  - reflexivity.
  - exact listing_nodup.
  - vm_compute. discriminate.
  - vm_compute. apply Permutation_sym.
    apply (perm_trans (l' := [0; 2; 1])).
    + apply perm_skip, perm_swap.
    + apply perm_swap.
Defined.


Lemma truncated_load_fails :
  load_fails env_truncated "enter your image folder/half.JPG"
    (Exc OSError "image file is truncated").
Proof. right. eexists. split; [reflexivity|]. left. reflexivity. Defined.

Lemma latin_load_fails :
  load_fails env_latin
    ("enter your image folder/" +:+ String (ascii_of_nat 233) "t.png")
    (Exc UnidentifiedImageError "cannot identify image file").
Proof. left. reflexivity. Defined.

Lemma placeholder_drawn_without_image_witness :
  display (snd (on_button_click counter_gen env_emptied (start 4)))
  = ShowsText "No images found in folder."
  /\ display (snd (on_button_click counter_gen env_truncated (start 4)))
     = ShowsText "Error loading image."
  /\ fst (on_button_click counter_gen env_latin (start 4))
     = Raise (Exc UnicodeEncodeError "'ascii' codec can't encode character").
Proof.
  split; [|split].
  - apply (placeholder_drawn_without_image counter_gen env_emptied (start 4));
      reflexivity.
  - pose proof (placeholder_drawn_without_image counter_gen env_truncated
                  (start 4) eq_refl) as H.
    cbn zeta in H. destruct H as [_ H].
    exact (H "enter your image folder/half.JPG"
             (Exc OSError "image file is truncated")
             eq_refl truncated_load_fails).
  - pose proof (placeholder_drawn_without_image counter_gen env_latin
                  (start 4) eq_refl) as H.
    cbn zeta in H. destruct H as [_ H].
    exact (proj1 (H _ _ eq_refl latin_load_fails)).
Defined.



Lemma session_returns :
  fst (main counter_gen env_photos presses (start 4)) = Return tt.
Proof. vm_compute. reflexivity. Defined.

Lemma session_image_alive_witness :
  display (world (snd (main counter_gen env_photos presses (start 4))))
  <> ShowsNothing.
Proof.
  apply (session_image_alive counter_gen env_photos presses (start 4)).
  - reflexivity.
  - exact session_returns.
Defined.



Lemma session_layout_fixed_witness :
  master (world (snd (main counter_gen env_photos presses (start 4))))
  = {| win_title := "Random Image Viewer";
       win_geometry := "1920x1080"; win_bg := "yellow" |}.
Proof.
  apply (session_layout_fixed counter_gen env_photos presses (start 4)).
  - reflexivity.
  - exact session_returns.
Defined.

Lemma session_picture_stays_witness :
  exists im',
    display (world (mainloop counter_gen presses
                      (snd (main counter_gen env_photos [] (start 4)))))
    = ShowsImage im'
    /\ im_size im' = (1000, 500)%Z.
Proof.
  apply (session_picture_stays counter_gen env_photos [] presses (start 4)
           dog).
  - reflexivity.
  - reflexivity.
  - vm_compute. reflexivity.
Defined.

End SessionRuns.
